(** * Session controller of the Saleor Telegram mini app (src/App.tsx)

    A shallow embedding of the state kept by the [App] component and of the
    callbacks that change it: the cart ([updateCart], [resetCart],
    [summarizeCart]), the order sheet, store selection with the catalog load,
    and order submission; then the projections onto the host chrome, the
    click handlers of the view, the store list, the notification timer, the
    text helpers, the start-up sequence (src/main.tsx) and the webhook
    registration script (sethook.js).

    Conventions of the embedding.
    - The React state cells ([useState]) are the fields of one record
      [State]; a callback is a function on that record.  A callback runs
      against the state of the latest render: React re-renders between two
      user events, so the values a callback closes over are the fields of the
      state it is applied to.  The one place where a closure outlives its
      render is the continuation of [submitOrder] after its [await]; it is
      modelled with the captured render state and the current state as two
      separate arguments.
    - A JavaScript [Map] is an insertion-ordered association list
      ([JsMap]): iteration order is observable in [summarizeCart] (currency
      inference) and in the category sort (stability).
    - [number] is [Z] for quantities (the interface only produces 1,
      [q + 1] and [q - 1]) and [Q] for amounts of money; floating-point
      rounding is not modelled.
    - [string | null] is [option string]; truthiness of [""] and [null] is
      written out where the source uses [||], [&&], [!] or [?.]. *)

From Stdlib Require Import String Ascii List Bool ZArith QArith Lia.
From Stdlib Require Import DecimalString Sorted Permutation.
Import ListNotations.

Close Scope Q_scope.
Local Open Scope list_scope.
Local Open Scope string_scope.

(** ** JavaScript values *)

Module Js.

(** [Boolean(s)] for a string. *)
Definition truthy (s : string) : bool := negb (s =? "").

(** [Boolean(o)] for [string | null | undefined]. *)
Definition truthy_opt (o : option string) : bool :=
  match o with
  | Some s => truthy s
  | None => false
  end.

(** [a || d] where [d] is a string. *)
Definition or_str (a : option string) (d : string) : string :=
  match a with
  | Some s => if truthy s then s else d
  | None => d
  end.

(** [a || b] where both sides may be [null]/[undefined]. *)
Definition or_opt (a b : option string) : option string :=
  if truthy_opt a then a else b.

(** [a || null]. *)
Definition or_null (a : option string) : option string :=
  if truthy_opt a then a else None.

(** What [Array.prototype.join] prints for one element. *)
Definition join_elt (o : option string) : string :=
  match o with
  | Some s => s
  | None => ""
  end.

(** [xs.join(sep)]. *)
Fixpoint join (sep : string) (xs : list string) : string :=
  match xs with
  | [] => ""
  | [x] => x
  | x :: rest => x ++ sep ++ join sep rest
  end.

(** Result of an [async] function: resolved value or rejection with an
    [Error] carrying a message. *)
Inductive result (A : Type) : Type :=
| Resolved (a : A)
| Rejected (message : string).
Arguments Resolved {A} a.
Arguments Rejected {A} message.

End Js.

(** ** Insertion-ordered maps with string keys *)

Module JsMap.

Definition t (V : Type) : Type := list (string * V).

Section Ops.
Context {V : Type}.

Definition empty : t V := [].

Fixpoint get (m : t V) (k : string) : option V :=
  match m with
  | [] => None
  | (k', v) :: m' => if k' =? k then Some v else get m' k
  end.

Definition has (m : t V) (k : string) : bool :=
  match get m k with
  | Some _ => true
  | None => false
  end.

(** [m.set(k, v)]: an existing key keeps its position, a new key goes
    last. *)
Fixpoint set (m : t V) (k : string) (v : V) : t V :=
  match m with
  | [] => [(k, v)]
  | (k', v') :: m' =>
      if k' =? k then (k, v) :: m' else (k', v') :: set m' k v
  end.

(** [m.delete(k)]. *)
Fixpoint delete (m : t V) (k : string) : t V :=
  match m with
  | [] => []
  | (k', v') :: m' =>
      if k' =? k then delete m' k else (k', v') :: delete m' k
  end.

Definition keys (m : t V) : list string := map fst m.
Definition values (m : t V) : list V := map snd m.
Definition size (m : t V) : nat := length m.

End Ops.

End JsMap.

(** ** Data model *)

Record Store : Type := mkStore {
  store_id : string;
  store_slug : string;
  store_name : string;
  store_description : string;
  store_image : string;
  store_imageAlt : string
}.

Record Product : Type := mkProduct {
  id : string;
  slug : string;
  name : string;
  description : string;
  image : string;
  imageAlt : string;
  variantId : option string;
  variantName : string;
  variantSku : string;
  quantityAvailable : option Z;
  priceAmount : option Q;
  priceCurrency : option string
}.

Record Category : Type := mkCategory {
  cat_id : string;
  cat_name : string;
  products : list Product
}.

Record CartEntry : Type := mkCartEntry {
  product : Product;
  quantity : Z
}.

Record Total : Type := mkTotal {
  amount : Q;
  currency_label : string
}.

Record CartSummary : Type := mkCartSummary {
  items : Z;
  total : Total
}.

Record Toast : Type := mkToast {
  message : string;
  visible : bool
}.

(** The [useState] cells of [App] that the controller reads or writes. *)
Record State : Type := mkState {
  selectedStore : option Store;
  selectedCategoryId : option string;
  productsByCategory : JsMap.t Category;
  productEmptyMessage : string;
  cart : JsMap.t CartEntry;
  currency : option string;
  orderSheetVisible : bool;
  isSubmitting : bool;
  toast : Toast
}.

(** Initial values passed to [useState]. *)
Definition initialState : State :=
  {| selectedStore := None;
     selectedCategoryId := None;
     productsByCategory := JsMap.empty;
     productEmptyMessage :=
       "This category has no products right now. Try another one.";
     cart := JsMap.empty;
     currency := None;
     orderSheetVisible := false;
     isSubmitting := false;
     toast := {| message := ""; visible := false |} |}.

(** State setters ([setCart], [setCurrency], ...). *)

Definition setSelectedStore (v : option Store) (st : State) : State :=
  mkState v (selectedCategoryId st) (productsByCategory st)
    (productEmptyMessage st) (cart st) (currency st) (orderSheetVisible st)
    (isSubmitting st) (toast st).

Definition setSelectedCategoryId (v : option string) (st : State) : State :=
  mkState (selectedStore st) v (productsByCategory st)
    (productEmptyMessage st) (cart st) (currency st) (orderSheetVisible st)
    (isSubmitting st) (toast st).

Definition setProductsByCategory (v : JsMap.t Category) (st : State) : State :=
  mkState (selectedStore st) (selectedCategoryId st) v
    (productEmptyMessage st) (cart st) (currency st) (orderSheetVisible st)
    (isSubmitting st) (toast st).

Definition setProductEmptyMessage (v : string) (st : State) : State :=
  mkState (selectedStore st) (selectedCategoryId st) (productsByCategory st)
    v (cart st) (currency st) (orderSheetVisible st)
    (isSubmitting st) (toast st).

Definition setCart (v : JsMap.t CartEntry) (st : State) : State :=
  mkState (selectedStore st) (selectedCategoryId st) (productsByCategory st)
    (productEmptyMessage st) v (currency st) (orderSheetVisible st)
    (isSubmitting st) (toast st).

Definition setCurrency (v : option string) (st : State) : State :=
  mkState (selectedStore st) (selectedCategoryId st) (productsByCategory st)
    (productEmptyMessage st) (cart st) v (orderSheetVisible st)
    (isSubmitting st) (toast st).

Definition setOrderSheetVisible (v : bool) (st : State) : State :=
  mkState (selectedStore st) (selectedCategoryId st) (productsByCategory st)
    (productEmptyMessage st) (cart st) (currency st) v
    (isSubmitting st) (toast st).

Definition setIsSubmitting (v : bool) (st : State) : State :=
  mkState (selectedStore st) (selectedCategoryId st) (productsByCategory st)
    (productEmptyMessage st) (cart st) (currency st) (orderSheetVisible st)
    v (toast st).

Definition setToast (v : Toast) (st : State) : State :=
  mkState (selectedStore st) (selectedCategoryId st) (productsByCategory st)
    (productEmptyMessage st) (cart st) (currency st) (orderSheetVisible st)
    (isSubmitting st) v.

(** ** Notification channel *)

(** [showToast(message)]: the single slot is overwritten and made visible.
    The expiry timer only ever clears [visible] later and is left out. *)
Definition showToast (msg : string) (st : State) : State :=
  setToast {| message := msg; visible := true |} st.

(** ** Cart store *)

Definition resetCart (st : State) : State :=
  setCurrency None (setCart JsMap.empty st).

Definition updateCart (p : Product) (nextQuantity : Z) (st : State) : State :=
  let next :=
    if (nextQuantity <=? 0)%Z
    then JsMap.delete (cart st) (id p)
    else JsMap.set (cart st) (id p) {| product := p; quantity := nextQuantity |} in
  let st1 := setCart next st in
  if Js.truthy_opt (priceCurrency p)
  then setCurrency (priceCurrency p) st1
  else st1.

(** Accumulator of the [forEach] in [summarizeCart]. *)
Record SummaryAcc : Type := mkAcc {
  acc_items : Z;
  acc_amount : Q;
  acc_currency : option string
}.

Definition summarize_step (acc : SummaryAcc) (e : CartEntry) : SummaryAcc :=
  match priceAmount (product e) with
  | Some price =>
      {| acc_items := acc_items acc + quantity e;
         acc_amount := (acc_amount acc + price * inject_Z (quantity e))%Q;
         acc_currency := Js.or_opt (priceCurrency (product e)) (acc_currency acc) |}
  | None => acc
  end.

Definition summarize_entries (cur : option string) (es : list CartEntry) : SummaryAcc :=
  fold_left summarize_step es
    {| acc_items := 0; acc_amount := 0%Q; acc_currency := cur |}.

Definition summarizeCart (st : State) : CartSummary :=
  let acc := summarize_entries (currency st) (JsMap.values (cart st)) in
  {| items := acc_items acc;
     total := {| amount := acc_amount acc;
                 currency_label := Js.or_str (acc_currency acc) "USD" |} |}.

(** Entries that [submitOrder] turns into order lines:
    [product.variantId && product.priceAmount != null]. *)
Definition purchasable (p : Product) : bool :=
  Js.truthy_opt (variantId p) &&
  match priceAmount p with Some _ => true | None => false end.

(** ** Order sheet and host chrome *)

(** [closeOrderSheet] as created in the render [captured], applied when the
    state is [cur]: the guard reads the captured visibility. *)
Definition closeOrderSheet_from (captured cur : State) : State :=
  if negb (orderSheetVisible captured) then cur
  else setOrderSheetVisible false cur.

Definition openOrderSheet (st : State) : State :=
  if orderSheetVisible st then st
  else setOrderSheetVisible true st.

Definition closeOrderSheet (st : State) : State :=
  closeOrderSheet_from st st.

Definition exitStoreView (st : State) : State :=
  resetCart
    (setProductsByCategory JsMap.empty
       (setSelectedCategoryId None (setSelectedStore None st))).

(** [mainButton.onClick] handler. *)
Definition mainButtonClick (st : State) : State :=
  if (0 <? JsMap.size (cart st))%nat then openOrderSheet st else st.

(** The mini-cart pill is rendered only when [cart.size > 0]; its click
    handler is [openOrderSheet]. *)
Definition miniCartRendered (st : State) : bool :=
  (0 <? JsMap.size (cart st))%nat.

Definition miniCartClick (st : State) : State :=
  if miniCartRendered st then openOrderSheet st else st.

(** [backButton.onClick] handler. *)
Definition backButtonClick (st : State) : State :=
  if orderSheetVisible st then closeOrderSheet st
  else match selectedStore st with
       | Some _ => exitStoreView st
       | None => st
       end.

(** [disabled] attribute of the Add button of a product card. *)
Definition addButtonDisabled (p : Product) : bool :=
  negb (Js.truthy_opt (variantId p)) ||
  match priceAmount p with Some _ => false | None => true end.

(** Click on the Add button of a product card.  The button exists only
    while the product has no cart entry (the quantity counter replaces it),
    and a disabled button delivers no click. *)
Definition addButtonClick (p : Product) (st : State) : State :=
  match JsMap.get (cart st) (id p) with
  | Some _ => st
  | None => if addButtonDisabled p then st else updateCart p 1 st
  end.

(** The two buttons of [renderQuantityCounter(product, quantity)]. *)
Definition counterMinusClick (p : Product) (q : Z) (st : State) : State :=
  updateCart p (q - 1) st.

Definition counterPlusClick (p : Product) (q : Z) (st : State) : State :=
  updateCart p (q + 1) st.

(** ** Catalog client *)

Record GraphQLError : Type := mkGraphQLError {
  gql_message : option string
}.

(** What one [fetch] round trip can produce, as [graphQLRequest] sees it. *)
Inductive HttpOutcome (D : Type) : Type :=
| FetchFailed (msg : string)
    (* [fetch] or [response.json()] rejects with an [Error] *)
| NotOk (status : N) (errorText statusText : string)
    (* [!response.ok]; [errorText] is [""] when reading the body fails *)
| Payload (errors : list GraphQLError) (data : option D).
Arguments FetchFailed {D} msg.
Arguments NotOk {D} status errorText statusText.
Arguments Payload {D} errors data.

(** Decimal rendering of a number in a template literal. *)
Definition dec (n : N) : string := NilZero.string_of_uint (N.to_uint n).

Definition graphQLRequest {D : Type} (o : HttpOutcome D) : Js.result (option D) :=
  match o with
  | FetchFailed msg => Js.Rejected msg
  | NotOk status errorText statusText =>
      Js.Rejected
        ("API request failed (" ++ dec status ++ "): " ++
         (if Js.truthy errorText then errorText else statusText))
  | Payload errors data =>
      match errors with
      | [] => Js.Resolved data
      | _ :: _ =>
          Js.Rejected
            (Js.join ", "
               (filter Js.truthy
                  (map (fun err => Js.join_elt (gql_message err)) errors)))
      end
  end.

(** Shape of one product node of the [CollectionProducts] response. *)
Record RawMoney : Type := mkRawMoney {
  raw_amount : option Q;
  raw_currency : option string
}.

Record RawVariant : Type := mkRawVariant {
  rv_id : option string;
  rv_name : option string;
  rv_sku : option string;
  rv_quantityAvailable : option Z;
  rv_gross : option RawMoney
}.

Record RawCategory : Type := mkRawCategory {
  rc_id : option string;
  rc_name : option string
}.

Record RawImage : Type := mkRawImage {
  img_url : option string;
  img_alt : option string
}.

Record RawNode : Type := mkRawNode {
  rn_id : string;
  rn_slug : string;
  rn_name : string;
  rn_description : option string;
  rn_category : option RawCategory;
  rn_thumbnail : option RawImage;
  rn_gross : option RawMoney;
  rn_variants : list RawVariant
}.

Definition opt_bind {A B : Type} (o : option A) (f : A -> option B) : option B :=
  match o with
  | Some a => f a
  | None => None
  end.

(** The object pushed onto [products] for one node: first variant, its price
    or else the start of the product's price range. *)
Definition productOfNode (node : RawNode) : Product :=
  let selectedVariant := hd_error (rn_variants node) in
  let price :=
    match opt_bind selectedVariant rv_gross with
    | Some g => Some g
    | None => rn_gross node
    end in
  {| id := rn_id node;
     slug := rn_slug node;
     name := rn_name node;
     description := Js.or_str (rn_description node) "";
     image := Js.or_str (opt_bind (rn_thumbnail node) img_url) "";
     imageAlt :=
       Js.or_str (opt_bind (rn_thumbnail node) img_alt)
         (Js.or_str (Some (rn_name node)) "");
     variantId := Js.or_null (opt_bind selectedVariant rv_id);
     variantName := Js.or_str (opt_bind selectedVariant rv_name) "";
     variantSku := Js.or_str (opt_bind selectedVariant rv_sku) "";
     quantityAvailable := opt_bind selectedVariant rv_quantityAvailable;
     priceAmount := opt_bind price raw_amount;
     priceCurrency := opt_bind price raw_currency |}.

(** Body of [edges.forEach] in [loadStoreProducts]. *)
Definition groupNode (byCategory : JsMap.t Category) (node : RawNode)
  : JsMap.t Category :=
  let categoryId := Js.or_str (opt_bind (rn_category node) rc_id) "uncategorized" in
  let categoryName := Js.or_str (opt_bind (rn_category node) rc_name) "Menu" in
  let m :=
    if JsMap.has byCategory categoryId then byCategory
    else JsMap.set byCategory categoryId
           {| cat_id := categoryId; cat_name := categoryName; products := [] |} in
  match JsMap.get m categoryId with
  | Some c =>
      JsMap.set m categoryId
        {| cat_id := cat_id c; cat_name := cat_name c;
           products := (products c ++ [productOfNode node])%list |}
  | None => m
  end.

Definition groupByCategory (edges : list RawNode) : JsMap.t Category :=
  fold_left groupNode edges JsMap.empty.

Section CategoryOrder.

(** [a.localeCompare(b, undefined, { sensitivity: "base" })], reduced to
    its sign.  The collation itself belongs to the host's ICU data. *)
Variable localeCompare : string -> string -> comparison.

Definition name_le (a b : Category) : bool :=
  match localeCompare (cat_name a) (cat_name b) with
  | Gt => false
  | _ => true
  end.

(** [Array.prototype.sort] is stable: a category goes in front of the
    first one that is not strictly before it. *)
Fixpoint insertCategory (c : Category) (sorted : list Category) : list Category :=
  match sorted with
  | [] => [c]
  | d :: rest =>
      if name_le c d then c :: d :: rest else d :: insertCategory c rest
  end.

Definition sortCategories (cs : list Category) : list Category :=
  fold_right insertCategory [] cs.

(** The part of [loadStoreProducts] after the request resolved;
    [edges] is [data?.collection?.products?.edges]. *)
Definition applyStoreProducts (edges : option (list RawNode)) (st : State) : State :=
  let byCategory :=
    groupByCategory (match edges with Some es => es | None => [] end) in
  let st1 := setProductsByCategory byCategory st in
  let firstCategory := hd_error (sortCategories (JsMap.values byCategory)) in
  setSelectedCategoryId
    (Js.or_null (option_map cat_id firstCategory)) st1.

Definition loadStoreProducts (o : HttpOutcome (list RawNode)) (st : State)
  : Js.result State :=
  match graphQLRequest o with
  | Js.Resolved edges => Js.Resolved (applyStoreProducts edges st)
  | Js.Rejected msg => Js.Rejected msg
  end.

(** [selectStore] up to its [await]. *)
Definition selectStore_begin (store : Store) (st : State) : State :=
  setProductEmptyMessage
    "This category has no products right now. Try another one."
    (resetCart (setSelectedStore (Some store) st)).

(** [selectStore] from the [await] on, against the then-current state. *)
Definition selectStore_settle (o : HttpOutcome (list RawNode)) (st : State) : State :=
  match loadStoreProducts o st with
  | Js.Resolved st' => st'
  | Js.Rejected msg =>
      setProductEmptyMessage "Unable to load products. Swipe down to retry."
        (setSelectedCategoryId None
           (setProductsByCategory JsMap.empty
              (showToast
                 (if Js.truthy msg then msg
                  else "Unable to load products for this store.")
                 st)))
  end.

Definition selectStore (store : Store) (o : HttpOutcome (list RawNode))
  (st : State) : State :=
  selectStore_settle o (selectStore_begin store st).

End CategoryOrder.

(** ** Order submission *)

Record TelegramUser : Type := mkTelegramUser {
  tg_id : option Z;
  tg_username : option string
}.

(** How [try { openLink(url) } catch { window.open(url, "_blank") }] ends:
    [openLink] succeeds, or it throws and [window.open] succeeds, or both
    throw and the [Error] of [window.open] (with this message) escapes. *)
Inductive Navigation : Type :=
| NavOpenLink
| NavWindowOpen
| NavThrows (message : string).

(** What the component reads from its surroundings when it submits. *)
Record Host : Type := mkHost {
  saleorChannel : string;
  telegramUser : option TelegramUser;
  formatMoney : Q -> string -> string;   (* [Intl.NumberFormat] *)
  dateNow : N;                           (* [Date.now()] *)
  navigate : string -> Navigation        (* [openLink], else [window.open] *)
}.

Record OrderLine : Type := mkOrderLine {
  line_quantity : Z;
  line_variantId : string
}.

Record CheckoutRequest : Type := mkCheckoutRequest {
  req_channel : string;
  req_email : string;
  req_lines : list OrderLine;
  req_metadata : list (string * string)
}.

Record CheckoutError : Type := mkCheckoutError {
  ce_message : option string;
  ce_code : option string
}.

Record Checkout : Type := mkCheckout {
  webUrl : option string
}.

Record CheckoutCreate : Type := mkCheckoutCreate {
  cc_checkout : option Checkout;
  cc_errors : option (list CheckoutError)
}.

Record CheckoutData : Type := mkCheckoutData {
  checkoutCreate : option CheckoutCreate
}.

Definition isDigit (c : ascii) : bool :=
  (48 <=? nat_of_ascii c)%nat && (nat_of_ascii c <=? 57)%nat.

(** [s.replace(/\D+/g, "")]. *)
Fixpoint keepDigits (s : string) : string :=
  match s with
  | EmptyString => EmptyString
  | String c rest =>
      if isDigit c then String c (keepDigits rest) else keepDigits rest
  end.

(** [String(n)] for an integer. *)
Definition stringOfZ (n : Z) : string := NilZero.string_of_int (Z.to_int n).

(** [n ? ... : ...] on an optional number. *)
Definition truthy_num (n : option Z) : bool :=
  match n with
  | Some z => negb (z =? 0)%Z
  | None => false
  end.

Definition buildPseudoEmail (now : N) (userData : option TelegramUser) : string :=
  match userData with
  | None => "guest+" ++ dec now ++ "@telegram.local"
  | Some u =>
      if Js.truthy_opt (tg_username u)
      then Js.join_elt (tg_username u) ++ "@telegram.local"
      else
        let safeId :=
          match tg_id u with
          | Some z => if negb (z =? 0)%Z then keepDigits (stringOfZ z) else dec now
          | None => dec now
          end in
        "user" ++ safeId ++ "@telegram.local"
  end.

(** The [cart.forEach] that collects the order lines. *)
Definition pushLine (lines : list OrderLine) (e : CartEntry) : list OrderLine :=
  match variantId (product e), priceAmount (product e) with
  | Some v, Some _ =>
      if Js.truthy v
      then (lines ++ [{| line_quantity := quantity e; line_variantId := v |}])%list
      else lines
  | _, _ => lines
  end.

Definition orderLines (m : JsMap.t CartEntry) : list OrderLine :=
  fold_left pushLine (JsMap.values m) [].

Definition buildMetadata (h : Host) (st : State) : list (string * string) :=
  let summary := summarizeCart st in
  let fallbackCurrency := Js.or_str (Some (currency_label (total summary))) "USD" in
  [ ("telegram_user_id",
     match telegramUser h with
     | Some u => if truthy_num (tg_id u)
                 then match tg_id u with Some z => stringOfZ z | None => "guest" end
                 else "guest"
     | None => "guest"
     end);
    ("telegram_username", Js.or_str (opt_bind (telegramUser h) tg_username) "");
    ("store_slug", Js.or_str (option_map store_slug (selectedStore st)) "");
    ("telegram_order_total", formatMoney h (amount (total summary)) fallbackCurrency) ].

(** [submitOrder] up to its [await]: the new state and the request sent to
    the backend, if any. *)
Definition submitOrder_begin (h : Host) (st : State)
  : State * option CheckoutRequest :=
  if isSubmitting st then (st, None)
  else
    let lines := orderLines (cart st) in
    match lines with
    | [] => (showToast "Nothing to submit. Add items first." st, None)
    | _ :: _ =>
        (setIsSubmitting true st,
         Some {| req_channel := saleorChannel h;
                 req_email := buildPseudoEmail (dateNow h) (telegramUser h);
                 req_lines := lines;
                 req_metadata := buildMetadata h st |})
    end.

(** The [try] block up to the point where the order is known to be
    accepted: the follow-up link, or the [Error] that is thrown. *)
Definition checkoutOutcome (o : HttpOutcome CheckoutData) : Js.result (option string) :=
  match graphQLRequest o with
  | Js.Rejected msg => Js.Rejected msg
  | Js.Resolved data =>
      let result := opt_bind data checkoutCreate in
      let errors :=
        match opt_bind result cc_errors with Some es => es | None => [] end in
      match errors with
      | _ :: _ =>
          let errorMessage :=
            Js.join ", "
              (map (fun err => Js.join_elt (Js.or_opt (ce_message err) (ce_code err)))
                 errors) in
          Js.Rejected
            (if Js.truthy errorMessage then errorMessage
             else "Saleor returned an error.")
      | [] =>
          Js.Resolved
            (Js.or_null (opt_bind (opt_bind result cc_checkout) webUrl))
      end
  end.

(** The [catch] and [finally] of [submitOrder]. *)
Definition submitOrder_failed (msg : string) (st : State) : State :=
  setIsSubmitting false
    (showToast
       ("Order submission failed: " ++
        (if Js.truthy msg then msg else "Unknown error"))
       st).

(** [submitOrder] from the [await] on.  [captured] is the render in which
    the callback was created (its [closeOrderSheet] reads that render's
    visibility), [cur] the state when the response arrives.  The second
    component is the link handed to [openLink] / [window.open].  When the
    order is accepted, sheet, cart and confirmation are dealt with before the
    link is opened; an [Error] that escapes the navigation reaches the outer
    [catch] after that. *)
Definition submitOrder_settle (h : Host) (captured : State)
  (o : HttpOutcome CheckoutData) (cur : State) : State * option string :=
  match checkoutOutcome o with
  | Js.Resolved checkoutUrl =>
      let confirmed :=
        showToast "Order draft created. Continue in Saleor to finalize."
          (resetCart (closeOrderSheet_from captured cur)) in
      match checkoutUrl with
      | Some url =>
          match navigate h url with
          | NavThrows msg => (submitOrder_failed msg confirmed, Some url)
          | _ => (setIsSubmitting false confirmed, Some url)
          end
      | None => (setIsSubmitting false confirmed, None)
      end
  | Js.Rejected msg => (submitOrder_failed msg cur, None)
  end.

(** A whole submission with nothing happening while the request is in
    flight; [backend] answers the request. *)
Definition submitOrder (h : Host)
  (backend : CheckoutRequest -> HttpOutcome CheckoutData) (st : State)
  : State * option string :=
  match submitOrder_begin h st with
  | (st1, Some req) => submitOrder_settle h st (backend req) st1
  | (st1, None) => (st1, None)
  end.

(** [n] invocations of [submitOrder] one after the other, none of them
    answered yet: the final state and the requests that went out. *)
Fixpoint issueSubmissions (h : Host) (n : nat) (st : State)
  : State * list CheckoutRequest :=
  match n with
  | O => (st, [])
  | S n' =>
      let (st1, req) := submitOrder_begin h st in
      let (st2, reqs) := issueSubmissions h n' st1 in
      (st2, (match req with Some q => [q] | None => [] end ++ reqs)%list)
  end.

(** A sequence of [updateCart] calls. *)
Definition updateCartAll (calls : list (Product * Z)) (st : State) : State :=
  fold_left (fun s call => updateCart (fst call) (snd call) s) calls st.

(** ** Host chrome projections and the remaining handlers of the view *)

(** [Boolean(selectedStore || orderSheetVisible)] of the back-button effect. *)
Definition backButtonShouldShow (st : State) : bool :=
  match selectedStore st with
  | Some _ => true
  | None => orderSheetVisible st
  end.

Inductive BackButtonCall : Type :=
| BackShow
| BackHide.

(** The effect that keeps the back button in step with the state; outside
    Telegram it does nothing. *)
Definition syncBackButton (isTelegram : bool) (st : State) : option BackButtonCall :=
  if negb isTelegram then None
  else if backButtonShouldShow st then Some BackShow else Some BackHide.

(** The "Stores" link of the menu view. *)
Definition storesButtonClick (st : State) : State :=
  exitStoreView (if orderSheetVisible st then closeOrderSheet st else st).

Record MainButtonParams : Type := mkMainButtonParams {
  mb_text : option string;
  mb_bgColor : option string;
  mb_textColor : option string;
  mb_isVisible : option bool;
  mb_isEnabled : option bool
}.

Inductive MainButtonCall : Type :=
| MainHide
| MainSetParams (params : MainButtonParams)
| MainShow.

(** The two custom properties read from the document's computed style,
    already trimmed. *)
Record Styles : Type := mkStyles {
  accentColor : string;
  accentText : string
}.

(** [syncMainButton]: the calls made on [mainButton], in order. *)
Definition syncMainButton (isTelegram : bool) (h : Host) (styles : Styles)
  (st : State) : list MainButtonCall :=
  if negb isTelegram then []
  else
    let summary := summarizeCart st in
    if (items summary =? 0)%Z then
      [ MainHide;
        MainSetParams {| mb_text := None; mb_bgColor := None; mb_textColor := None;
                         mb_isVisible := Some false; mb_isEnabled := None |} ]
    else
      [ MainSetParams
          {| mb_text :=
               Some ("Review order · " ++
                     formatMoney h (amount (total summary))
                       (currency_label (total summary)));
             mb_bgColor := Js.or_null (Some (accentColor styles));
             mb_textColor := Js.or_null (Some (accentText styles));
             mb_isVisible := Some true;
             mb_isEnabled := Some true |};
        MainShow ].

(** [disabled] attribute of the submit button of the order sheet. *)
Definition submitButtonDisabled (st : State) : bool :=
  (items (summarizeCart st) =? 0)%Z || isSubmitting st.

Definition submitButtonClick (h : Host) (st : State)
  : State * option CheckoutRequest :=
  if submitButtonDisabled st then (st, None) else submitOrder_begin h st.

(** [selectedCategory]: the category under [selectedCategoryId], if any. *)
Definition selectedCategory (st : State) : option Category :=
  match selectedCategoryId st with
  | Some k =>
      if Js.truthy k then JsMap.get (productsByCategory st) k else None
  | None => None
  end.

(** The product cards on display. *)
Definition productGrid (st : State) : list Product :=
  match selectedCategory st with
  | Some c => products c
  | None => []
  end.

(** Every product of the loaded catalog. *)
Definition catalogProducts (m : JsMap.t Category) : list Product :=
  flat_map products (JsMap.values m).

(** The order sheet lists the cart lines (with their counters) only when the
    summary counts at least one item. *)
Definition orderLinesRendered (st : State) : bool :=
  negb (items (summarizeCart st) =? 0)%Z.

(** What a user can click. Cards are addressed by their position in the
    grid, order lines by their position in the cart, tabs by the position of
    their category in the catalog. *)
Inductive UiEvent : Type :=
| CardAdd (i : nat)
| CardMinus (i : nat)
| CardPlus (i : nat)
| LineMinus (i : nat)
| LinePlus (i : nat)
| TabClick (i : nat)
| MiniCartClick
| MainButtonClick
| SheetCloseClick
| BackClick
| StoresClick.

(** Click on the counter of the [i]-th product card: the card shows a
    counter only while the cart has an entry for the product, and the
    counter is built from the card's product and the entry's quantity. *)
Definition cardCounterClick (button : Product -> Z -> State -> State)
  (i : nat) (st : State) : State :=
  match nth_error (productGrid st) i with
  | Some p =>
      match JsMap.get (cart st) (id p) with
      | Some e => button p (quantity e) st
      | None => st
      end
  | None => st
  end.

(** Click on the counter of the [i]-th order line: built from the entry's
    own product and quantity. *)
Definition lineCounterClick (button : Product -> Z -> State -> State)
  (i : nat) (st : State) : State :=
  if orderLinesRendered st then
    match nth_error (JsMap.values (cart st)) i with
    | Some e => button (product e) (quantity e) st
    | None => st
    end
  else st.

Definition uiStep (st : State) (ev : UiEvent) : State :=
  match ev with
  | CardAdd i =>
      match nth_error (productGrid st) i with
      | Some p => addButtonClick p st
      | None => st
      end
  | CardMinus i => cardCounterClick counterMinusClick i st
  | CardPlus i => cardCounterClick counterPlusClick i st
  | LineMinus i => lineCounterClick counterMinusClick i st
  | LinePlus i => lineCounterClick counterPlusClick i st
  | TabClick i =>
      match nth_error (JsMap.values (productsByCategory st)) i with
      | Some c => setSelectedCategoryId (Some (cat_id c)) st
      | None => st
      end
  | MiniCartClick => miniCartClick st
  | MainButtonClick => mainButtonClick st
  | SheetCloseClick => closeOrderSheet st
  | BackClick => backButtonClick st
  | StoresClick => storesButtonClick st
  end.

Definition uiRun (evs : list UiEvent) (st : State) : State :=
  fold_left uiStep evs st.

(** ** Store list *)

Record RawStoreNode : Type := mkRawStoreNode {
  rs_id : string;
  rs_slug : string;
  rs_name : string;
  rs_description : option string;
  rs_seoDescription : option string;
  rs_backgroundImage : option RawImage
}.

Definition storeOfNode (node : RawStoreNode) : Store :=
  {| store_id := rs_id node;
     store_slug := rs_slug node;
     store_name := rs_name node;
     store_description :=
       Js.or_str (Js.or_opt (rs_seoDescription node) (rs_description node)) "";
     store_image := Js.or_str (opt_bind (rs_backgroundImage node) img_url) "";
     store_imageAlt :=
       Js.or_str (opt_bind (rs_backgroundImage node) img_alt)
         (Js.or_str (Some (rs_name node)) "") |}.

(** The two state cells of the store view. *)
Record StoreList : Type := mkStoreList {
  stores : list Store;
  storeEmptyMessage : string
}.

Definition initialStoreList : StoreList :=
  {| stores := []; storeEmptyMessage := "Loading stores…" |}.

(** [loadStores] up to its [await]. *)
Definition loadStores_begin (sl : StoreList) : StoreList :=
  {| stores := stores sl; storeEmptyMessage := "Loading stores…" |}.

(** [loadStores] from the [await] on, with the [catch] of the effect that
    calls it; [edges] is [data?.collections?.edges]. *)
Definition loadStores_settle (o : HttpOutcome (list RawStoreNode))
  (sl : StoreList) : StoreList :=
  match graphQLRequest o with
  | Js.Resolved edges =>
      let nextStores :=
        map storeOfNode (match edges with Some es => es | None => [] end) in
      {| stores := nextStores;
         storeEmptyMessage :=
           match nextStores with
           | [] => "No active stores were found in this Saleor channel."
           | _ :: _ => ""
           end |}
  | Js.Rejected _ =>
      {| stores := stores sl;
         storeEmptyMessage :=
           "Unable to load stores. Pull to refresh or try again later." |}
  end.

Definition loadStores (o : HttpOutcome (list RawStoreNode)) (sl : StoreList)
  : StoreList :=
  loadStores_settle o (loadStores_begin sl).

(** ** Text helpers

    [truncateText] counts and cuts UTF-16 code units, so its strings are
    lists of code units here. *)

Module Utf16.

Definition str : Type := list N.

(** ECMAScript WhiteSpace and LineTerminator, which [trim] strips. *)
Definition isWhiteSpace (c : N) : bool :=
  existsb (N.eqb c)
    [9; 10; 11; 12; 13; 32; 160; 5760; 8232; 8233; 8239; 8287; 12288; 65279]%N
  || ((8192 <=? c)%N && (c <=? 8202)%N).

Fixpoint trimStart (s : str) : str :=
  match s with
  | [] => []
  | c :: rest => if isWhiteSpace c then trimStart rest else s
  end.

Definition trimEnd (s : str) : str := rev (trimStart (rev s)).

Definition trim (s : str) : str := trimEnd (trimStart s).

(** [s.slice(0, stop)] for an integer [stop]. *)
Definition slice0 (s : str) (stop : Z) : str :=
  let len := Z.of_nat (length s) in
  let k := if (stop <? 0)%Z then Z.max (len + stop) 0 else Z.min stop len in
  firstn (Z.to_nat k) s.

(** The one code unit of the horizontal ellipsis. *)
Definition ellipsis : N := 8230%N.

Definition truncateText (value : str) (maxLength : Z) : str :=
  match value with
  | [] => []
  | _ :: _ =>
      if (Z.of_nat (length value) <=? maxLength)%Z then value
      else (trim (slice0 value (maxLength - 1)) ++ [ellipsis])%list
  end.

End Utf16.

(** ** The webhook registration script (sethook.js) *)

Module SetHook.

Record Env : Type := mkEnv {
  fetchAvailable : bool;                 (* [typeof fetch === "function"] *)
  TELEGRAM_BOT_TOKEN : option string;
  REMOTE_PATH : option string
}.

(** [s.endsWith("/")]. *)
Fixpoint endsWithSlash (s : string) : bool :=
  match s with
  | EmptyString => false
  | String c EmptyString => Ascii.eqb c "/"
  | String _ rest => endsWithSlash rest
  end.

(** [s.slice(0, -1)]. *)
Fixpoint dropLast (s : string) : string :=
  match s with
  | EmptyString => EmptyString
  | String _ EmptyString => EmptyString
  | String c rest => String c (dropLast rest)
  end.

Definition trimmedBase (remotePath : string) : string :=
  if endsWithSlash remotePath then dropLast remotePath else remotePath.

Definition webhookUrl (remotePath : string) : string :=
  trimmedBase remotePath ++ "/telegram".

Definition endpoint (token : string) : string :=
  "https://api.telegram.org/bot" ++ token ++ "/setWebhook".

(** The parsed body when it is truthy: whether its [ok] field is truthy, and
    its pretty-printed JSON. *)
Record Body : Type := mkBody {
  body_ok : bool;
  body_json : string
}.

Record Response : Type := mkResponse {
  resp_ok : bool;
  resp_status : N;
  resp_statusText : string;
  resp_payload : option Body   (* [None]: unparsable or falsy body *)
}.

Inductive FetchResult : Type :=
| FetchThrows (error : string)
| FetchReturns (r : Response).

Record Request : Type := mkRequest {
  rq_endpoint : string;
  rq_url : string;
  rq_drop_pending_updates : bool
}.

(** What running the script leaves behind. *)
Record Run : Type := mkRun {
  requested : option Request;
  stdout : list string;
  stderr : list string;
  exitCode : Z
}.

Definition bodyLines (payload : option Body) : list string :=
  match payload with
  | Some b => [body_json b]
  | None => []
  end.

Definition failed (rq : option Request) (errors : list string) : Run :=
  {| requested := rq; stdout := []; stderr := errors; exitCode := 1 |}.

Definition run (env : Env) (fetch : Request -> FetchResult) : Run :=
  if negb (fetchAvailable env) then
    failed None
      ["Global fetch API is not available. Please use Node.js 18 or newer."]
  else if negb (Js.truthy_opt (TELEGRAM_BOT_TOKEN env)) then
    failed None ["Missing TELEGRAM_BOT_TOKEN environment variable."]
  else if negb (Js.truthy_opt (REMOTE_PATH env)) then
    failed None ["Missing REMOTE_PATH environment variable."]
  else
    let url := webhookUrl (Js.join_elt (REMOTE_PATH env)) in
    let rq := {| rq_endpoint := endpoint (Js.join_elt (TELEGRAM_BOT_TOKEN env));
                 rq_url := url;
                 rq_drop_pending_updates := true |} in
    match fetch rq with
    | FetchThrows error =>
        failed (Some rq) ["Unexpected error while setting webhook."; error]
    | FetchReturns r =>
        if negb (resp_ok r) then
          failed (Some rq)
            (("Telegram API responded with HTTP " ++ dec (resp_status r) ++ " " ++
              resp_statusText r) :: bodyLines (resp_payload r))
        else if negb (match resp_payload r with
                      | Some b => body_ok b
                      | None => false
                      end) then
          failed (Some rq) ("Webhook set failed!" :: bodyLines (resp_payload r))
        else
          {| requested := Some rq;
             stdout := [url; "Webhook set successfully!"];
             stderr := [];
             exitCode := 0 |}
    end.

End SetHook.

(** ** The empty-state caption of the menu view *)

(** What the [product-empty] block shows, if it is rendered:
    [selectedStore && (!selectedCategory || !selectedCategory.products.length)]
    guards it, and its text depends on whether a category is selected. *)
Definition productEmptyState (st : State) : option string :=
  match selectedStore st with
  | None => None
  | Some _ =>
      let noProducts :=
        match selectedCategory st with
        | None => true
        | Some c => match products c with [] => true | _ :: _ => false end
        end in
      if noProducts then
        Some (if Js.truthy_opt (selectedCategoryId st)
              then productEmptyMessage st
              else "Select a category to view items.")
      else None
  end.

(** Everything that moves the session: a click, a click on a store card
    (which starts [selectStore]), the arrival of a catalog response (which
    finishes one), a click on the submit button, and the arrival of a
    checkout response for a submission started in the render [captured]. *)
Inductive SessionEvent : Type :=
| Click (ev : UiEvent)
| StoreCardClick (store : Store)
| CatalogResponse (o : HttpOutcome (list RawNode))
| SubmitClick (h : Host)
| CheckoutResponse (h : Host) (captured : State) (o : HttpOutcome CheckoutData).

Definition sessionStep (localeCompare : string -> string -> comparison)
  (st : State) (ev : SessionEvent) : State :=
  match ev with
  | Click e => uiStep st e
  | StoreCardClick store => selectStore_begin store st
  | CatalogResponse o => selectStore_settle localeCompare o st
  | SubmitClick h => fst (submitButtonClick h st)
  | CheckoutResponse h captured o => fst (submitOrder_settle h captured o st)
  end.

Definition sessionRun (localeCompare : string -> string -> comparison)
  (evs : list SessionEvent) (st : State) : State :=
  fold_left (sessionStep localeCompare) evs st.

(** ** Bootstrap (main.tsx) *)

Module Bootstrap.

(** The SDK calls of [bootstrap], in source order. *)
Inductive Call : Type :=
| Init
| ThemeMount | ThemeBindCssVars
| MiniAppMount | MiniAppReady
| ViewportMount | ViewportExpand
| BackButtonMount | MainButtonMount.

(** The five [try] blocks with their warnings. *)
Definition blocks : list (list Call * string) :=
  [ ([Init], "Telegram SDK init failed, continuing in web mode.");
    ([ThemeMount; ThemeBindCssVars], "Theme params unavailable.");
    ([MiniAppMount; MiniAppReady], "Mini app mount failed.");
    ([ViewportMount; ViewportExpand], "Viewport not available.");
    ([BackButtonMount; MainButtonMount], "Buttons unavailable.") ].

Record Trace : Type := mkTrace {
  attempted : list Call;
  warnings : list string
}.

(** One [try] block: calls run in order until one throws; the [catch]
    warns and execution goes on after the block. *)
Fixpoint runBlock (throws : Call -> bool) (calls : list Call) (warning : string)
  : Trace :=
  match calls with
  | [] => {| attempted := []; warnings := [] |}
  | c :: rest =>
      if throws c then {| attempted := [c]; warnings := [warning] |}
      else
        let t := runBlock throws rest warning in
        {| attempted := c :: attempted t; warnings := warnings t |}
  end.

Fixpoint runBlocks (throws : Call -> bool) (bs : list (list Call * string))
  : Trace :=
  match bs with
  | [] => {| attempted := []; warnings := [] |}
  | (calls, warning) :: rest =>
      let t1 := runBlock throws calls warning in
      let t2 := runBlocks throws rest in
      {| attempted := (attempted t1 ++ attempted t2)%list;
         warnings := (warnings t1 ++ warnings t2)%list |}
  end.

(** [bootstrap()]; the call to [render] follows it unconditionally. *)
Definition bootstrap (throws : Call -> bool) : Trace := runBlocks throws blocks.

End Bootstrap.

(** ** The notification slot with its timer

    [showToast] with [toastTimerRef] and the pending time-outs of the page.
    Durations are left out: a time-out is an identifier that may fire at any
    later moment unless it has been cleared. *)

Module Notifier.

Record t : Type := mkNotifier {
  slot : Toast;
  timerRef : option nat;      (* [toastTimerRef.current] *)
  pending : list nat;         (* time-outs set and neither fired nor cleared *)
  nextTimer : nat             (* identifier the next [setTimeout] returns *)
}.

(** Time-out identifiers are positive. *)
Definition init : t :=
  {| slot := {| message := ""; visible := false |};
     timerRef := None; pending := []; nextTimer := 1 |}.

(** [window.clearTimeout(id)]. *)
Definition clearTimeout (id : nat) (l : list nat) : list nat :=
  filter (fun x => negb (x =? id)%nat) l.

Definition showToast (msg : string) (n : t) : t :=
  let pending1 :=
    match timerRef n with
    | Some id => if (id =? 0)%nat then pending n else clearTimeout id (pending n)
    | None => pending n
    end in
  {| slot := {| message := msg; visible := true |};
     timerRef := Some (nextTimer n);
     pending := (pending1 ++ [nextTimer n])%list;
     nextTimer := S (nextTimer n) |}.

(** The time-out [id] fires, if it is still pending:
    [setToast((prev) => ({ ...prev, visible: false }))]. *)
Definition fire (id : nat) (n : t) : t :=
  if existsb (Nat.eqb id) (pending n) then
    {| slot := {| message := message (slot n); visible := false |};
       timerRef := timerRef n;
       pending := clearTimeout id (pending n);
       nextTimer := nextTimer n |}
  else n.

Inductive Event : Type :=
| Post (msg : string)
| Fire (id : nat).

Definition step (n : t) (ev : Event) : t :=
  match ev with
  | Post msg => showToast msg n
  | Fire id => fire id n
  end.

Definition run (evs : list Event) : t := fold_left step evs init.

End Notifier.

(** ** Vocabulary of the properties *)

(** Entries with a known price. *)
Definition priced (e : CartEntry) : bool :=
  match priceAmount (product e) with Some _ => true | None => false end.

Definition pricedEntries (m : JsMap.t CartEntry) : list CartEntry :=
  filter priced (JsMap.values m).

(** Price times quantity of one entry. *)
Definition entryCost (e : CartEntry) : Q :=
  match priceAmount (product e) with
  | Some price => (price * inject_Z (quantity e))%Q
  | None => 0%Q
  end.

Fixpoint sumZ (xs : list Z) : Z :=
  match xs with
  | [] => 0
  | x :: rest => x + sumZ rest
  end.

Fixpoint sumQ (xs : list Q) : Q :=
  match xs with
  | [] => 0%Q
  | x :: rest => (x + sumQ rest)%Q
  end.

(** The cart restricted to its priced entries. *)
Definition pricedCart (m : JsMap.t CartEntry) : JsMap.t CartEntry :=
  filter (fun kv => priced (snd kv)) m.

(** Well-formed cart: one entry per key, keyed by the product identity,
    quantities at least one. *)
Definition cartInvariant (m : JsMap.t CartEntry) : Prop :=
  NoDup (JsMap.keys m) /\
  forall k e, In (k, e) m -> k = id (product e) /\ (1 <= quantity e)%Z.

(** A product that cannot be bought: no resolved variant or no price. *)
Definition notPurchasable (p : Product) : Prop :=
  variantId p = None \/ priceAmount p = None.


(** The ways the backend call of [submitOrder] fails: the transport rejects,
    the response is not 2xx, the payload carries a GraphQL error list, or
    [checkoutCreate] reports validation errors. *)
Inductive SubmissionFails : HttpOutcome CheckoutData -> Prop :=
| fails_transport msg :
    SubmissionFails (FetchFailed msg)
| fails_http status errorText statusText :
    SubmissionFails (NotOk status errorText statusText)
| fails_backend err errs data :
    SubmissionFails (Payload (err :: errs) data)
| fails_validation checkout err errs :
    SubmissionFails
      (Payload []
         (Some {| checkoutCreate :=
                    Some {| cc_checkout := checkout;
                            cc_errors := Some (err :: errs) |} |})).

(** The order line of one entry, if it yields one. *)
Definition lineOf (e : CartEntry) : list OrderLine := pushLine [] e.

(** What [Array.prototype.sort] asks of its comparator: the order it induces
    is total and transitive. *)
Definition consistentComparator (cmp : string -> string -> comparison) : Prop :=
  (forall a b, cmp a b = Gt -> cmp b a <> Gt) /\
  (forall a b c, cmp a b <> Gt -> cmp b c <> Gt -> cmp a c <> Gt).

(** Keys of the category map are the categories' own non-empty identities. *)
Definition categoriesKeyed (m : JsMap.t Category) : Prop :=
  forall k c, In (k, c) m -> cat_id c = k /\ Js.truthy k = true.

(** Key and display name under which [loadStoreProducts] files a node. *)
Definition categoryIdOf (node : RawNode) : string :=
  Js.or_str (opt_bind (rn_category node) rc_id) "uncategorized".

Definition categoryNameOf (node : RawNode) : string :=
  Js.or_str (opt_bind (rn_category node) rc_name) "Menu".

(** The nodes filed under the key [k], in response order. *)
Definition nodesOfCategory (k : string) (edges : list RawNode) : list RawNode :=
  filter (fun node => categoryIdOf node =? k) edges.

(** A node with its variant list replaced. *)
Definition withVariants (node : RawNode) (vs : list RawVariant) : RawNode :=
  {| rn_id := rn_id node; rn_slug := rn_slug node; rn_name := rn_name node;
     rn_description := rn_description node; rn_category := rn_category node;
     rn_thumbnail := rn_thumbnail node; rn_gross := rn_gross node;
     rn_variants := vs |}.

(** Two categories whose names the comparator does not tell apart. *)
Definition sameRank (cmp : string -> string -> comparison) (a b : Category) : bool :=
  name_le cmp a b && name_le cmp b a.

(** Cart entries that yield an order line. *)
Definition purchasableEntries (m : JsMap.t CartEntry) : list CartEntry :=
  filter (fun e => purchasable (product e)) (JsMap.values m).

Definition quantitiesPositive (m : JsMap.t CartEntry) : Prop :=
  forall k e, In (k, e) m -> (1 <= quantity e)%Z.

(** Products of the catalog that share an identity agree on whether they
    can be bought. *)
Definition catalogConsistent (m : JsMap.t Category) : Prop :=
  forall p p',
    In p (catalogProducts m) -> In p' (catalogProducts m) ->
    id p = id p' -> purchasable p = purchasable p'.

(** What the product cards and order lines maintain: entries are filed
    under their product's identity, hold a product of the catalog that can
    be bought, and count at least one. *)
Definition cartFromCatalog (st : State) : Prop :=
  NoDup (JsMap.keys (cart st)) /\
  forall k e,
    In (k, e) (cart st) ->
    k = id (product e) /\
    (1 <= quantity e)%Z /\
    purchasable (product e) = true /\
    In (product e) (catalogProducts (productsByCategory st)).

(** What every reachable catalog view satisfies: one key per category, keys
    are the categories' identities, no category without products, and a
    selected category that exists. *)
Definition catalogViewOk (st : State) : Prop :=
  NoDup (JsMap.keys (productsByCategory st)) /\
  categoriesKeyed (productsByCategory st) /\
  (forall k c, In (k, c) (productsByCategory st) -> products c <> []) /\
  (forall k, selectedCategoryId st = Some k -> Js.truthy k = true ->
             JsMap.get (productsByCategory st) k <> None).

(** At most the newest time-out of the notification slot is pending. *)
Definition notifierWellTimed (n : Notifier.t) : Prop :=
  (1 <= Notifier.nextTimer n)%nat /\
  (Notifier.pending n = [] \/
   exists id, Notifier.timerRef n = Some id /\ Notifier.pending n = [id] /\
              (1 <= id < Notifier.nextTimer n)%nat).

(** The failures of the backend call together with the message each one
    carries: the message of the transport's [Error]; for a response that is
    not 2xx, its status with the body text or else the status text; for a
    GraphQL error list, its non-empty messages joined by ", "; for validation
    errors of [checkoutCreate], the message or else the code of each error
    joined by ", ", and "Saleor returned an error." when that is blank. *)
Inductive SubmissionFailsWith : HttpOutcome CheckoutData -> string -> Prop :=
| failsWith_transport msg :
    SubmissionFailsWith (FetchFailed msg) msg
| failsWith_http status errorText statusText :
    SubmissionFailsWith (NotOk status errorText statusText)
      ("API request failed (" ++ dec status ++ "): " ++
       (if Js.truthy errorText then errorText else statusText))
| failsWith_backend err errs data :
    SubmissionFailsWith (Payload (err :: errs) data)
      (Js.join ", "
         (filter Js.truthy
            (map (fun e => Js.join_elt (gql_message e)) (err :: errs))))
| failsWith_validation checkout err errs :
    SubmissionFailsWith
      (Payload []
         (Some {| checkoutCreate :=
                    Some {| cc_checkout := checkout;
                            cc_errors := Some (err :: errs) |} |}))
      (let reasons :=
         Js.join ", "
           (map (fun e => Js.join_elt (Js.or_opt (ce_message e) (ce_code e)))
              (err :: errs)) in
       if Js.truthy reasons then reasons else "Saleor returned an error.").

(** An error list that reports nothing. *)
Definition noCheckoutErrors (errs : option (list CheckoutError)) : Prop :=
  errs = None \/ errs = Some [].

(** The responses that accept the order, together with the follow-up link
    they carry: the checkout's [webUrl] when it is not blank. *)
Inductive SubmissionAcceptedWith
  : HttpOutcome CheckoutData -> option string -> Prop :=
| accepted_without_data :
    SubmissionAcceptedWith (Payload [] None) None
| accepted_without_result :
    SubmissionAcceptedWith (Payload [] (Some {| checkoutCreate := None |})) None
| accepted_without_checkout errs :
    noCheckoutErrors errs ->
    SubmissionAcceptedWith
      (Payload []
         (Some {| checkoutCreate :=
                    Some {| cc_checkout := None; cc_errors := errs |} |}))
      None
| accepted_with_checkout errs url :
    noCheckoutErrors errs ->
    SubmissionAcceptedWith
      (Payload []
         (Some {| checkoutCreate :=
                    Some {| cc_checkout := Some {| webUrl := url |};
                            cc_errors := errs |} |}))
      (Js.or_null url).

(** ** Sample data *)

Definition productX : Product :=
  {| id := "prod-x"; slug := "product-x"; name := "ProductX";
     description := ""; image := ""; imageAlt := "ProductX";
     variantId := Some "var-x"; variantName := "Default"; variantSku := "X-1";
     quantityAvailable := Some 2%Z;
     priceAmount := Some 5%Q; priceCurrency := Some "USD" |}.

Definition productEur : Product :=
  {| id := "prod-e"; slug := "product-e"; name := "Espresso";
     description := ""; image := ""; imageAlt := "Espresso";
     variantId := Some "var-e"; variantName := "Single"; variantSku := "E-1";
     quantityAvailable := None;
     priceAmount := Some (3 # 2)%Q; priceCurrency := Some "EUR" |}.

Definition productUnpriced : Product :=
  {| id := "prod-u"; slug := "product-u"; name := "Mystery";
     description := ""; image := ""; imageAlt := "Mystery";
     variantId := Some "var-u"; variantName := ""; variantSku := "";
     quantityAvailable := Some 7%Z;
     priceAmount := None; priceCurrency := None |}.

Definition storeA : Store :=
  {| store_id := "store-a"; store_slug := "store-a"; store_name := "Store A";
     store_description := ""; store_image := ""; store_imageAlt := "" |}.

Definition hostGuest : Host :=
  {| saleorChannel := "default-channel";
     telegramUser := None;
     formatMoney := fun _ cur => cur;
     dateNow := 1700000000000%N;
     navigate := fun _ => NavOpenLink |}.

(** The same host, where neither [openLink] nor [window.open] can open a
    link. *)
Definition hostNoNavigation : Host :=
  {| saleorChannel := "default-channel";
     telegramUser := None;
     formatMoney := fun _ cur => cur;
     dateNow := 1700000000000%N;
     navigate := fun _ => NavThrows "Invalid URL" |}.

(** A backend that rejects every checkout with one validation error. *)
Definition backendOutOfStock (_ : CheckoutRequest) : HttpOutcome CheckoutData :=
  Payload []
    (Some {| checkoutCreate :=
               Some {| cc_checkout := None;
                       cc_errors :=
                         Some [ {| ce_message := Some "Insufficient stock.";
                                   ce_code := Some "INSUFFICIENT_STOCK" |} ] |} |}).

(** A comparator for the examples: code-point order after folding ASCII
    letters to lower case. *)
Definition lowerAscii (c : ascii) : ascii :=
  let n := nat_of_ascii c in
  if (65 <=? n)%nat && (n <=? 90)%nat then ascii_of_nat (n + 32) else c.

Fixpoint lowerString (s : string) : string :=
  match s with
  | EmptyString => EmptyString
  | String c rest => String (lowerAscii c) (lowerString rest)
  end.

Definition asciiCaseInsensitiveCompare (a b : string) : comparison :=
  String.compare (lowerString a) (lowerString b).

Definition usd (n : Q) : option RawMoney :=
  Some {| raw_amount := Some n; raw_currency := Some "USD" |}.

Definition nodeBurger : RawNode :=
  {| rn_id := "prod-burger"; rn_slug := "burger"; rn_name := "Burger";
     rn_description := None;
     rn_category := Some {| rc_id := Some "cat-food"; rc_name := Some "Food" |};
     rn_thumbnail := None;
     rn_gross := usd 9;
     rn_variants :=
       [ {| rv_id := Some "var-burger"; rv_name := Some "Single";
            rv_sku := Some "B-1"; rv_quantityAvailable := Some 10%Z;
            rv_gross := usd 9 |} ] |}.

Definition nodeCola : RawNode :=
  {| rn_id := "prod-cola"; rn_slug := "cola"; rn_name := "Cola";
     rn_description := None;
     rn_category := Some {| rc_id := Some "cat-drinks"; rc_name := Some "drinks" |};
     rn_thumbnail := None;
     rn_gross := usd 5;
     rn_variants :=
       [ {| rv_id := Some "var-cola"; rv_name := Some "Can";
            rv_sku := Some "C-1"; rv_quantityAvailable := Some 3%Z;
            rv_gross := usd 5 |} ] |}.

Definition catalogFoodAndDrinks : HttpOutcome (list RawNode) :=
  Payload [] (Some [nodeBurger; nodeCola]).

Definition catalogUnavailable : HttpOutcome (list RawNode) :=
  NotOk 503%N "" "Service Unavailable".

(** A backend that accepts every checkout and returns a follow-up link. *)
Definition backendAccepts (_ : CheckoutRequest) : HttpOutcome CheckoutData :=
  Payload []
    (Some {| checkoutCreate :=
               Some {| cc_checkout :=
                         Some {| webUrl := Some "https://shop.example/checkout/1" |};
                       cc_errors := Some [] |} |}).

(** A session inside Store A with one item in the cart and the order sheet
    open. *)
Definition sessionWithOpenSheet : State :=
  openOrderSheet
    (updateCart productX 1 (setSelectedStore (Some storeA) initialState)).

(** A priced product whose node listed no variant. *)
Definition productNoVariant : Product :=
  {| id := "prod-n"; slug := "product-n"; name := "Loose tea";
     description := ""; image := ""; imageAlt := "Loose tea";
     variantId := None; variantName := ""; variantSku := "";
     quantityAvailable := None;
     priceAmount := Some 4%Q; priceCurrency := Some "USD" |}.

Definition stylesPlain : Styles :=
  {| accentColor := "#3390ec"; accentText := "" |}.

(** Store A just opened, with its two-product catalog loaded. *)
Definition sessionInStoreA : State :=
  selectStore asciiCaseInsensitiveCompare storeA catalogFoodAndDrinks
    initialState.

(** "Hot drink  and" as code units, with two blanks after "drink". *)
Definition textHotDrinks : Utf16.str :=
  [72; 111; 116; 32; 100; 114; 105; 110; 107; 32; 32; 97; 110; 100]%N.

Definition storeNodeA : RawStoreNode :=
  {| rs_id := "store-a"; rs_slug := "store-a"; rs_name := "Store A";
     rs_description := Some "Long description";
     rs_seoDescription := Some "";
     rs_backgroundImage := None |}.

Definition hookEnv : SetHook.Env :=
  {| SetHook.fetchAvailable := true;
     SetHook.TELEGRAM_BOT_TOKEN := Some "123:abc";
     SetHook.REMOTE_PATH := Some "https://shop.example/" |}.

Definition hookFetchOk (_ : SetHook.Request) : SetHook.FetchResult :=
  SetHook.FetchReturns
    {| SetHook.resp_ok := true; SetHook.resp_status := 200%N;
       SetHook.resp_statusText := "OK";
       SetHook.resp_payload :=
         Some {| SetHook.body_ok := true; SetHook.body_json := "{}" |} |}.

(** * Properties *)

(** ** Insertion-ordered maps *)

Module JsMapFacts.
Import JsMap.

Section Facts.
Context {V : Type}.
Implicit Types (m : t V) (k : string) (v : V).

Lemma get_set_same m k v : get (set m k v) k = Some v.
Proof.
  induction m as [|[k' v'] m IH]; simpl.
  - now rewrite String.eqb_refl.
  - destruct (k' =? k) eqn:E; simpl.
    + now rewrite String.eqb_refl.
    + now rewrite E.
Qed.

Lemma get_set_other m k v k0 : k0 <> k -> get (set m k v) k0 = get m k0.
Proof.
  intros Hne. induction m as [|[k' v'] m IH]; simpl.
  - destruct (k =? k0) eqn:E; [apply String.eqb_eq in E; congruence | easy].
  - destruct (k' =? k) eqn:E; simpl.
    + apply String.eqb_eq in E; subst k'.
      destruct (k =? k0) eqn:E0; [apply String.eqb_eq in E0; congruence | easy].
    + now destruct (k' =? k0).
Qed.

Lemma get_delete_same m k : get (delete m k) k = None.
Proof.
  induction m as [|[k' v'] m IH]; simpl; [easy|].
  destruct (k' =? k) eqn:E; simpl; [easy | now rewrite E].
Qed.

Lemma get_delete_other m k k0 : k0 <> k -> get (delete m k) k0 = get m k0.
Proof.
  intros Hne. induction m as [|[k' v'] m IH]; simpl; [easy|].
  destruct (k' =? k) eqn:E; simpl.
  - apply String.eqb_eq in E; subst k'.
    destruct (k =? k0) eqn:E0; [apply String.eqb_eq in E0; congruence | easy].
  - now destruct (k' =? k0).
Qed.

Lemma in_set m k v kv : In kv (set m k v) -> kv = (k, v) \/ In kv m.
Proof.
  induction m as [|[k' v'] m IH]; simpl.
  - intros [H|[]]; auto.
  - destruct (k' =? k); simpl; intros [H|H]; auto.
    destruct (IH H); auto.
Qed.

Lemma in_delete m k kv : In kv (delete m k) -> In kv m /\ fst kv <> k.
Proof.
  induction m as [|[k' v'] m IH]; simpl; [easy|].
  destruct (k' =? k) eqn:E; simpl.
  - intros H. destruct (IH H); auto.
  - intros [H|H].
    + subst kv; simpl. apply String.eqb_neq in E. auto.
    + destruct (IH H); auto.
Qed.

Lemma in_keys_get m k : In k (keys m) <-> get m k <> None.
Proof.
  induction m as [|[k' v'] m IH]; simpl; [tauto|].
  destruct (k' =? k) eqn:E.
  - apply String.eqb_eq in E. split; [congruence | auto].
  - apply String.eqb_neq in E. rewrite <- IH. tauto.
Qed.

Lemma NoDup_keys_set m k v : NoDup (keys m) -> NoDup (keys (set m k v)).
Proof.
  induction m as [|[k' v'] m IH]; simpl; intros Hnd.
  - constructor; [easy | constructor].
  - inversion Hnd as [|? ? Hnotin Hnd']; subst.
    destruct (k' =? k) eqn:E; simpl.
    + apply String.eqb_eq in E; subst k'. now constructor.
    + apply String.eqb_neq in E. constructor; [|auto].
      rewrite in_keys_get, get_set_other by auto.
      now rewrite <- in_keys_get.
Qed.

Lemma NoDup_keys_delete m k : NoDup (keys m) -> NoDup (keys (delete m k)).
Proof.
  induction m as [|[k' v'] m IH]; simpl; intros Hnd; [constructor|].
  inversion Hnd as [|? ? Hnotin Hnd']; subst.
  destruct (k' =? k) eqn:E; simpl; [auto|].
  apply String.eqb_neq in E. constructor; [|auto].
  rewrite in_keys_get, get_delete_other by auto.
  now rewrite <- in_keys_get.
Qed.

Lemma get_in m k v : get m k = Some v -> In (k, v) m.
Proof.
  induction m as [|[k' v'] m IH]; simpl; [discriminate|].
  destruct (k' =? k) eqn:E.
  - apply String.eqb_eq in E. intros H. inversion H; subst. now left.
  - intros H. right. auto.
Qed.

Lemma set_nonempty m k v : set m k v <> [].
Proof.
  destruct m as [|[k' v'] m]; simpl; [discriminate|].
  destruct (k' =? k); discriminate.
Qed.

Lemma values_filter (f : V -> bool) m :
  values (filter (fun kv => f (snd kv)) m) = filter f (values m).
Proof.
  induction m as [|[k' v'] m IH]; simpl; [easy|].
  destruct (f v'); simpl; now rewrite IH.
Qed.

End Facts.

End JsMapFacts.

(** ** Cart store *)

Lemma cart_updateCart p n st :
  cart (updateCart p n st) =
  if (n <=? 0)%Z then JsMap.delete (cart st) (id p)
  else JsMap.set (cart st) (id p) {| product := p; quantity := n |}.
Proof.
  unfold updateCart. now destruct (Js.truthy_opt (priceCurrency p)).
Qed.

Lemma updateCart_frame p n st :
  selectedStore (updateCart p n st) = selectedStore st /\
  orderSheetVisible (updateCart p n st) = orderSheetVisible st /\
  isSubmitting (updateCart p n st) = isSubmitting st /\
  toast (updateCart p n st) = toast st.
Proof.
  unfold updateCart. now destruct (Js.truthy_opt (priceCurrency p)).
Qed.

Lemma cartInvariant_empty : cartInvariant JsMap.empty.
Proof.
  split; [constructor | intros k e []].
Qed.

Lemma cartInvariant_updateCart p n st :
  cartInvariant (cart st) -> cartInvariant (cart (updateCart p n st)).
Proof.
  intros [Hnd Hall]. rewrite cart_updateCart.
  destruct (n <=? 0)%Z eqn:Hn.
  - split.
    + now apply JsMapFacts.NoDup_keys_delete.
    + intros k e Hin. apply JsMapFacts.in_delete in Hin. now apply Hall.
  - apply Z.leb_gt in Hn. split.
    + now apply JsMapFacts.NoDup_keys_set.
    + intros k e Hin. apply JsMapFacts.in_set in Hin.
      destruct Hin as [Heq|Hin]; [|now apply Hall].
      inversion Heq; subst; simpl. split; [reflexivity | lia].
Qed.

Lemma cartInvariant_updateCartAll calls st :
  cartInvariant (cart st) -> cartInvariant (cart (updateCartAll calls st)).
Proof.
  revert st. induction calls as [|[p n] calls IH]; intros st Hinv; simpl.
  - exact Hinv.
  - apply IH. now apply cartInvariant_updateCart.
Qed.

Example updateCart_twice_same_product :
  cart (updateCartAll [(productX, 1%Z); (productEur, 4%Z); (productX, 3%Z)]
          initialState)
  = [("prod-x", {| product := productX; quantity := 3 |});
     ("prod-e", {| product := productEur; quantity := 4 |})].
Proof. reflexivity. Qed.

Example updateCart_zero_removes :
  cart (updateCartAll [(productX, 2%Z); (productX, 0%Z)] initialState) = [].
Proof. reflexivity. Qed.

(** C3. Whatever sequence of [updateCart] calls is applied to the initial
    (empty) cart, the resulting cart has at most one entry per product
    identity, each entry is filed under its own product's identity, and every
    quantity is at least 1; a call with a quantity of 0 or less leaves no
    entry for that product, whatever the state it is applied to. *)
Theorem updateCart_sequence_invariant :
  forall calls : list (Product * Z),
    let c := cart (updateCartAll calls initialState) in
    NoDup (JsMap.keys c) /\
    (forall k e, In (k, e) c -> k = id (product e) /\ (1 <= quantity e)%Z) /\
    (forall p n st, (n <= 0)%Z ->
       JsMap.get (cart (updateCart p n st)) (id p) = None /\
       ~ In (id p) (JsMap.keys (cart (updateCart p n st)))).
Proof.
  intros calls c.
  destruct (cartInvariant_updateCartAll calls initialState cartInvariant_empty)
    as [Hnd Hall].
  split; [exact Hnd | split; [exact Hall|]].
  intros p n st Hn.
  assert (Hget : JsMap.get (cart (updateCart p n st)) (id p) = None).
  { rewrite cart_updateCart. apply Z.leb_le in Hn. rewrite Hn.
    apply JsMapFacts.get_delete_same. }
  split; [exact Hget|].
  rewrite JsMapFacts.in_keys_get. congruence.
Qed.

Lemma updateCart_sequence_invariant_witness :
  (1 <= 3)%Z /\
  JsMap.get
    (cart (updateCart productX 0
             (updateCartAll [(productX, 3%Z)] initialState)))
    "prod-x" = None.
Proof.
  split.
  - apply (proj1 (proj2 (updateCart_sequence_invariant [(productX, 3%Z)]))
             "prod-x" {| product := productX; quantity := 3 |}).
    simpl. left. reflexivity.
  - apply (proj2 (proj2 (updateCart_sequence_invariant [])) productX 0%Z).
    lia.
Defined.

(** C10. A call [updateCart product n] with [n > 0] files exactly the
    quantity [n] under the product, whatever its [quantityAvailable]; the
    stored entry does not depend on the stock figure. *)
Theorem updateCart_ignores_stock :
  forall (p : Product) (n : Z) (st : State),
    (0 < n)%Z ->
    JsMap.get (cart (updateCart p n st)) (id p)
    = Some {| product := p; quantity := n |} /\
    (forall avail, quantityAvailable p = Some avail -> (avail < n)%Z ->
       option_map quantity (JsMap.get (cart (updateCart p n st)) (id p)) = Some n).
Proof.
  intros p n st Hn.
  assert (H : JsMap.get (cart (updateCart p n st)) (id p)
              = Some {| product := p; quantity := n |}).
  { rewrite cart_updateCart.
    destruct (n <=? 0)%Z eqn:E; [apply Z.leb_le in E; lia|].
    apply JsMapFacts.get_set_same. }
  split; [exact H|].
  intros avail _ _. now rewrite H.
Qed.

Lemma updateCart_ignores_stock_witness :
  quantityAvailable productX = Some 2%Z /\
  JsMap.get (cart (updateCart productX 5 initialState)) "prod-x"
  = Some {| product := productX; quantity := 5 |}.
Proof.
  split; [reflexivity|].
  apply (proj1 (updateCart_ignores_stock productX 5%Z initialState ltac:(lia))).
Defined.

Lemma summarize_step_fold es acc :
  acc_items (fold_left summarize_step es acc)
  = (acc_items acc + sumZ (map quantity (filter priced es)))%Z /\
  (acc_amount (fold_left summarize_step es acc)
   == acc_amount acc + sumQ (map entryCost (filter priced es)))%Q.
Proof.
  revert acc. induction es as [|e es IH]; intros acc.
  - cbn [fold_left filter map sumZ sumQ]. split; [lia | ring].
  - cbn [fold_left filter].
    destruct (IH (summarize_step acc e)) as [HI HA].
    rewrite HI, HA. clear IH HI HA.
    unfold summarize_step, priced, entryCost.
    destruct (priceAmount (product e)) as [price|] eqn:E.
    + cbn [map sumZ sumQ acc_items acc_amount]. rewrite E.
      split; [lia | ring].
    + split; reflexivity.
Qed.

Lemma summarize_step_filter es acc :
  fold_left summarize_step (filter priced es) acc
  = fold_left summarize_step es acc.
Proof.
  revert acc. induction es as [|e es IH]; intros acc; [reflexivity|].
  cbn [filter fold_left]. destruct (priced e) eqn:P.
  - cbn [fold_left]. apply IH.
  - rewrite IH. f_equal.
    unfold priced in P. unfold summarize_step.
    now destruct (priceAmount (product e)).
Qed.

Example summary_two_productX :
  summarizeCart (updateCart productX 2 initialState)
  = {| items := 2;
       total := {| amount := (0 + 5 * inject_Z 2)%Q; currency_label := "USD" |} |}.
Proof. reflexivity. Qed.

(** C9. The item count of [summarizeCart] is the sum of the quantities of
    the entries whose [priceAmount] is not null, the total amount is the sum
    of price times quantity over the same entries, and dropping the entries
    with a null price from the cart changes nothing in the summary. *)
Theorem summarizeCart_sums_priced_entries :
  forall st : State,
    items (summarizeCart st)
    = sumZ (map quantity (pricedEntries (cart st))) /\
    (amount (total (summarizeCart st))
     == sumQ (map entryCost (pricedEntries (cart st))))%Q /\
    summarizeCart (setCart (pricedCart (cart st)) st) = summarizeCart st.
Proof.
  intros st. unfold summarizeCart, summarize_entries, pricedEntries.
  destruct (summarize_step_fold (JsMap.values (cart st))
              {| acc_items := 0; acc_amount := 0%Q; acc_currency := currency st |})
    as [HI HA].
  simpl in HI, HA. split; [|split].
  - simpl. rewrite HI. lia.
  - simpl. rewrite HA. ring.
  - simpl. unfold pricedCart.
    rewrite (JsMapFacts.values_filter priced), summarize_step_filter.
    reflexivity.
Qed.




(** C2 (as the code has it). For a product without a resolved variant or
    without a price the Add button is disabled, so a click on it leaves the
    whole state unchanged; [updateCart] itself does not look at
    purchasability and files such a product under any quantity above 0. *)
Theorem nonpurchasable_blocked_by_add_button_only :
  forall (p : Product) (st : State),
    notPurchasable p ->
    addButtonDisabled p = true /\
    addButtonClick p st = st /\
    (forall n, (0 < n)%Z ->
       JsMap.get (cart (updateCart p n st)) (id p)
       = Some {| product := p; quantity := n |}).
Proof.
  intros p st Hnp.
  assert (Hdis : addButtonDisabled p = true).
  { unfold addButtonDisabled. destruct Hnp as [Hv|Hp].
    - now rewrite Hv.
    - rewrite Hp. apply orb_true_r. }
  split; [exact Hdis | split].
  - unfold addButtonClick. rewrite Hdis.
    now destruct (JsMap.get (cart st) (id p)).
  - intros n Hn. rewrite cart_updateCart.
    destruct (n <=? 0)%Z eqn:E; [apply Z.leb_le in E; lia|].
    apply JsMapFacts.get_set_same.
Qed.

Lemma nonpurchasable_blocked_by_add_button_only_witness :
  notPurchasable productUnpriced /\
  addButtonClick productUnpriced initialState = initialState.
Proof.
  assert (H : notPurchasable productUnpriced) by (right; reflexivity).
  split; [exact H|].
  apply (proj1 (proj2 (nonpurchasable_blocked_by_add_button_only
                         productUnpriced initialState H))).
Defined.

(** C2 as stated fails: [updateCart] on an unpriced product changes the
    cart. *)
Lemma updateCart_nonpurchasable_counterexample :
  notPurchasable productUnpriced /\
  cart (updateCart productUnpriced 1 initialState)
  = [("prod-u", {| product := productUnpriced; quantity := 1 |})] /\
  cart (updateCart productUnpriced 1 initialState) <> cart initialState.
Proof.
  split; [right; reflexivity | split; [reflexivity | discriminate]].
Qed.

(** ** Order sheet *)

Example back_button_closes_sheet_first :
  let st := openOrderSheet
              (updateCart productX 1 (setSelectedStore (Some storeA) initialState)) in
  orderSheetVisible (backButtonClick st) = false /\
  selectedStore (backButtonClick st) = Some storeA /\
  selectedStore (backButtonClick (backButtonClick st)) = None.
Proof. repeat split. Qed.




(** ** Order submission *)

Lemma pushLine_lineOf lines e : pushLine lines e = (lines ++ lineOf e)%list.
Proof.
  unfold lineOf, pushLine.
  destruct (variantId (product e)) as [v|], (priceAmount (product e)) as [a|];
    try (now rewrite app_nil_r).
  destruct (Js.truthy v); [reflexivity | now rewrite app_nil_r].
Qed.

Lemma fold_pushLine es lines :
  fold_left pushLine es lines = (lines ++ flat_map lineOf es)%list.
Proof.
  revert lines. induction es as [|e es IH]; intros lines; simpl.
  - now rewrite app_nil_r.
  - now rewrite IH, pushLine_lineOf, <- app_assoc.
Qed.

Lemma orderLines_flat_map m : orderLines m = flat_map lineOf (JsMap.values m).
Proof.
  unfold orderLines. now rewrite fold_pushLine.
Qed.

Lemma lineOf_notPurchasable e : notPurchasable (product e) -> lineOf e = [].
Proof.
  unfold lineOf, pushLine. intros [H|H]; rewrite H; [reflexivity|].
  now destruct (variantId (product e)).
Qed.

Lemma lineOf_purchasable e :
  purchasable (product e) = true ->
  exists v, variantId (product e) = Some v /\
            lineOf e = [{| line_quantity := quantity e; line_variantId := v |}].
Proof.
  unfold purchasable, lineOf, pushLine.
  destruct (variantId (product e)) as [v|]; simpl; [|discriminate].
  destruct (priceAmount (product e)); [|now rewrite andb_false_r].
  rewrite andb_true_r. intros Hv. exists v. now rewrite Hv.
Qed.

Lemma orderLines_nil m :
  (forall k e, In (k, e) m -> notPurchasable (product e)) -> orderLines m = [].
Proof.
  rewrite orderLines_flat_map. induction m as [|[k e] m IH]; intros H; simpl.
  - reflexivity.
  - rewrite (lineOf_notPurchasable e) by (apply (H k); now left).
    apply IH. intros k' e' Hin. apply (H k'). now right.
Qed.

Lemma orderLines_cons m k e :
  In (k, e) m -> purchasable (product e) = true -> orderLines m <> [].
Proof.
  rewrite orderLines_flat_map. intros Hin Hp.
  destruct (lineOf_purchasable e Hp) as [v [_ Hl]].
  induction m as [|[k' e'] m IH]; simpl; [easy|].
  destruct Hin as [Heq|Hin].
  - inversion Heq; subst. rewrite Hl. discriminate.
  - intros Happ. apply app_eq_nil in Happ. now apply IH.
Qed.

Lemma issueSubmissions_inflight h n st :
  isSubmitting st = true -> issueSubmissions h n st = (st, []).
Proof.
  intros H. induction n as [|n IH]; simpl; [reflexivity|].
  unfold submitOrder_begin. now rewrite H, IH.
Qed.

Example submit_productX_lines :
  option_map req_lines
    (snd (submitOrder_begin hostGuest
            (updateCart productUnpriced 4 (updateCart productX 2 initialState))))
  = Some [{| line_quantity := 2; line_variantId := "var-x" |}].
Proof. reflexivity. Qed.

(** C5. When no cart entry has both a variant identity and a price, be the
    cart empty or made of non-purchasable entries only, [submitOrder] sends
    nothing to the backend and does not touch the submission flag; and, past
    its in-flight guard, that is whenever no submission is in flight, it
    posts the notification "Nothing to submit. Add items first." and the flag
    stays unset. *)
Theorem submitOrder_nothing_to_submit :
  forall (h : Host) (st : State),
    (forall k e, In (k, e) (cart st) -> notPurchasable (product e)) ->
    snd (submitOrder_begin h st) = None /\
    isSubmitting (fst (submitOrder_begin h st)) = isSubmitting st /\
    (forall backend,
       snd (submitOrder h backend st) = None /\
       isSubmitting (fst (submitOrder h backend st)) = isSubmitting st) /\
    (isSubmitting st = false ->
       submitOrder_begin h st
       = (showToast "Nothing to submit. Add items first." st, None) /\
       isSubmitting (fst (submitOrder_begin h st)) = false /\
       toast (fst (submitOrder_begin h st))
       = {| message := "Nothing to submit. Add items first."; visible := true |} /\
       (forall backend,
          submitOrder h backend st
          = (showToast "Nothing to submit. Add items first." st, None))).
Proof.
  intros h st Hnone.
  assert (Hbegin : submitOrder_begin h st
                   = if isSubmitting st then (st, None)
                     else (showToast "Nothing to submit. Add items first." st,
                           None)).
  { unfold submitOrder_begin. now rewrite (orderLines_nil _ Hnone). }
  split; [|split; [|split]].
  - rewrite Hbegin. now destruct (isSubmitting st).
  - rewrite Hbegin. now destruct (isSubmitting st) eqn:E.
  - intros backend. unfold submitOrder. rewrite Hbegin.
    now destruct (isSubmitting st) eqn:E.
  - intros Hidle. rewrite Hidle in Hbegin. rewrite Hbegin. simpl.
    split; [reflexivity|]. split; [exact Hidle|]. split; [reflexivity|].
    intros backend. unfold submitOrder. now rewrite Hbegin.
Qed.

Lemma submitOrder_nothing_to_submit_witness :
  cart (updateCart productUnpriced 1 initialState) <> JsMap.empty /\
  submitOrder_begin hostGuest (updateCart productUnpriced 1 initialState)
  = (showToast "Nothing to submit. Add items first."
       (updateCart productUnpriced 1 initialState), None).
Proof.
  split; [discriminate|].
  apply (proj1 (proj2 (proj2 (proj2
           (submitOrder_nothing_to_submit hostGuest
              (updateCart productUnpriced 1 initialState)
              ltac:(intros k e [Heq|[]]; inversion Heq; right; reflexivity))))
           eq_refl)).
Defined.

(** C6. With the submission flag already set, [submitOrder] returns at once:
    no request goes out and the state is unchanged; hence of two (or any
    number of) submissions issued one after the other from an idle state
    with a purchasable entry, exactly one reaches the backend. *)
Theorem submitOrder_inflight_is_noop :
  forall (h : Host) (st : State),
    (isSubmitting st = true ->
       submitOrder_begin h st = (st, None) /\
       forall backend, submitOrder h backend st = (st, None)) /\
    (isSubmitting st = false ->
     (exists k e, In (k, e) (cart st) /\ purchasable (product e) = true) ->
       length (snd (issueSubmissions h 2 st)) = 1%nat /\
       forall n, length (snd (issueSubmissions h (S n) st)) = 1%nat).
Proof.
  intros h st. split.
  - intros Hfl.
    assert (Hbegin : submitOrder_begin h st = (st, None)).
    { unfold submitOrder_begin. now rewrite Hfl. }
    split; [exact Hbegin|].
    intros backend. unfold submitOrder. now rewrite Hbegin.
  - intros Hidle [k [e [Hin Hp]]].
    assert (Hall : forall n, length (snd (issueSubmissions h (S n) st)) = 1%nat).
    { intros n. cbn [issueSubmissions]. unfold submitOrder_begin.
      rewrite Hidle.
      destruct (orderLines (cart st)) as [|l ls] eqn:Hl.
      - exfalso. now apply (orderLines_cons _ _ _ Hin Hp).
      - rewrite issueSubmissions_inflight by reflexivity. reflexivity. }
    split; [apply (Hall 1%nat) | exact Hall].
Qed.

Lemma submitOrder_inflight_is_noop_witness :
  isSubmitting (updateCart productX 2 initialState) = false /\
  length (snd (issueSubmissions hostGuest 2 (updateCart productX 2 initialState)))
  = 1%nat.
Proof.
  split; [reflexivity|].
  apply (proj2 (submitOrder_inflight_is_noop hostGuest
                  (updateCart productX 2 initialState)) eq_refl).
  exists "prod-x", {| product := productX; quantity := 2 |}.
  split; [left; reflexivity | reflexivity].
Defined.

Lemma checkoutOutcome_fails o :
  SubmissionFails o -> exists msg, checkoutOutcome o = Js.Rejected msg.
Proof.
  intros H. destruct H; unfold checkoutOutcome; simpl; eauto.
Qed.

Lemma checkoutOutcome_rejected_fails o msg :
  checkoutOutcome o = Js.Rejected msg -> SubmissionFails o.
Proof.
  destruct o as [m|status errorText statusText|errors data].
  - intros _. constructor.
  - intros _. constructor.
  - destruct errors as [|err errs]; [|intros _; constructor].
    unfold checkoutOutcome. simpl.
    destruct data as [[[[checkout [[|err errs]|]]|]]|]; simpl; try discriminate.
    intros _. constructor.
Qed.

Example submit_accepted_round_trip :
  let st := openOrderSheet (updateCart productX 2 initialState) in
  items (summarizeCart st) = 2%Z /\
  submitOrder hostGuest backendAccepts st
  = (showToast "Order draft created. Continue in Saleor to finalize."
       (setOrderSheetVisible false (resetCart st)),
     Some "https://shop.example/checkout/1").
Proof. split; reflexivity. Qed.

Lemma submitOrder_settle_rejected h captured o cur msg :
  checkoutOutcome o = Js.Rejected msg ->
  submitOrder_settle h captured o cur
  = (setIsSubmitting false
       (showToast
          ("Order submission failed: " ++
           (if Js.truthy msg then msg else "Unknown error")) cur),
     None).
Proof.
  intros H. unfold submitOrder_settle. now rewrite H.
Qed.

Lemma checkoutOutcome_failsWith o msg :
  SubmissionFailsWith o msg -> checkoutOutcome o = Js.Rejected msg.
Proof.
  intros H. destruct H; reflexivity.
Qed.

Lemma failure_text_contains msg :
  exists pre,
    "Order submission failed: " ++ (if Js.truthy msg then msg else "Unknown error")
    = pre ++ msg.
Proof.
  unfold Js.truthy. destruct (msg =? "") eqn:E; simpl.
  - apply String.eqb_eq in E; subst msg.
    exists "Order submission failed: Unknown error". reflexivity.
  - exists "Order submission failed: ". reflexivity.
Qed.

Example submit_rejected_by_backend :
  let st := openOrderSheet (updateCart productX 2 initialState) in
  fst (submitOrder hostGuest backendOutOfStock st)
  = showToast "Order submission failed: Insufficient stock." st.
Proof. reflexivity. Qed.

(** C1. When the backend call of [submitOrder] fails with a message (the
    transport rejects with it; the response is not 2xx and the message tells
    status and text; the payload carries an error list and the message joins
    the errors' messages; [checkoutCreate] reports validation errors and the
    message joins their messages or codes), then, once the operation is over,
    the cart, the inferred currency and the order-sheet visibility are what
    they were before the call, the submission flag is unset, no link is
    opened, and the visible notification is "Order submission failed: "
    followed by that very message ("Unknown error" for an empty one).  The
    response handler leaves cart and sheet alone also when the state changed
    while the request was out. *)
Theorem submitOrder_failure_preserves_cart_and_sheet :
  forall (h : Host) (backend : CheckoutRequest -> HttpOutcome CheckoutData)
         (st st1 : State) (req : CheckoutRequest) (msg : string),
    submitOrder_begin h st = (st1, Some req) ->
    SubmissionFailsWith (backend req) msg ->
    (let st' := fst (submitOrder h backend st) in
     cart st' = cart st /\
     currency st' = currency st /\
     orderSheetVisible st' = orderSheetVisible st /\
     isSubmitting st' = false /\
     toast st'
     = {| message := "Order submission failed: " ++
                     (if Js.truthy msg then msg else "Unknown error");
          visible := true |} /\
     (exists pre, message (toast st') = pre ++ msg) /\
     snd (submitOrder h backend st) = None) /\
    (forall cur,
       let st' := fst (submitOrder_settle h st (backend req) cur) in
       cart st' = cart cur /\
       currency st' = currency cur /\
       orderSheetVisible st' = orderSheetVisible cur /\
       isSubmitting st' = false /\
       toast st'
       = {| message := "Order submission failed: " ++
                       (if Js.truthy msg then msg else "Unknown error");
            visible := true |} /\
       (exists pre, message (toast st') = pre ++ msg)).
Proof.
  intros h backend st st1 req msg Hbegin Hfails.
  pose proof (checkoutOutcome_failsWith _ _ Hfails) as Hmsg.
  assert (Hst1 : st1 = setIsSubmitting true st).
  { unfold submitOrder_begin in Hbegin.
    destruct (isSubmitting st); [discriminate|].
    destruct (orderLines (cart st)); [discriminate|].
    now inversion Hbegin. }
  split.
  - unfold submitOrder. rewrite Hbegin.
    rewrite (submitOrder_settle_rejected h st _ st1 msg Hmsg). subst st1.
    cbn [fst snd]. repeat (split; [reflexivity|]).
    split; [apply failure_text_contains | reflexivity].
  - intros cur.
    rewrite (submitOrder_settle_rejected h st _ cur msg Hmsg).
    cbn [fst]. repeat (split; [reflexivity|]).
    apply failure_text_contains.
Qed.

Lemma submitOrder_failure_preserves_cart_and_sheet_witness :
  toast (fst (submitOrder hostGuest backendOutOfStock
                (openOrderSheet (updateCart productX 2 initialState))))
  = {| message := "Order submission failed: Insufficient stock.";
       visible := true |} /\
  cart (fst (submitOrder hostGuest backendOutOfStock
               (openOrderSheet (updateCart productX 2 initialState))))
  = cart (openOrderSheet (updateCart productX 2 initialState)) /\
  orderSheetVisible
    (fst (submitOrder hostGuest backendOutOfStock
            (openOrderSheet (updateCart productX 2 initialState))))
  = true.
Proof.
  destruct (submitOrder_failure_preserves_cart_and_sheet
              hostGuest backendOutOfStock
              (openOrderSheet (updateCart productX 2 initialState))
              _ _ "Insufficient stock." eq_refl
              (failsWith_validation None
                 {| ce_message := Some "Insufficient stock.";
                    ce_code := Some "INSUFFICIENT_STOCK" |} []))
    as [[Hcart [_ [Hsheet [_ [Htoast _]]]]] _].
  split; [exact Htoast | split; [exact Hcart | exact Hsheet]].
Defined.

(** ** Store selection *)

Lemma or_str_truthy a d : Js.truthy d = true -> Js.truthy (Js.or_str a d) = true.
Proof.
  intros Hd. destruct a as [s|]; simpl; [|exact Hd].
  destruct (Js.truthy s) eqn:E; [exact E | exact Hd].
Qed.

Lemma categoriesKeyed_groupNode m node :
  categoriesKeyed m -> categoriesKeyed (groupNode m node).
Proof.
  intros Hm. unfold groupNode.
  set (cid := Js.or_str (opt_bind (rn_category node) rc_id) "uncategorized").
  set (cname := Js.or_str (opt_bind (rn_category node) rc_name) "Menu").
  assert (Hcid : Js.truthy cid = true) by (apply or_str_truthy; reflexivity).
  set (m1 := if JsMap.has m cid then m
             else JsMap.set m cid
                    {| cat_id := cid; cat_name := cname; products := [] |}).
  assert (Hm1 : categoriesKeyed m1).
  { subst m1. destruct (JsMap.has m cid); [exact Hm|].
    intros k c Hin. apply JsMapFacts.in_set in Hin.
    destruct Hin as [Heq|Hin]; [|now apply Hm].
    inversion Heq; subst. now split. }
  destruct (JsMap.get m1 cid) as [c|] eqn:G; [|exact Hm1].
  intros k c' Hin. apply JsMapFacts.in_set in Hin.
  destruct Hin as [Heq|Hin]; [|now apply Hm1].
  inversion Heq; subst k c'. simpl. split; [|exact Hcid].
  apply JsMapFacts.get_in in G. now apply Hm1 in G.
Qed.

Lemma groupNode_nonempty m node : groupNode m node <> [].
Proof.
  unfold groupNode.
  set (cid := Js.or_str (opt_bind (rn_category node) rc_id) "uncategorized").
  set (cname := Js.or_str (opt_bind (rn_category node) rc_name) "Menu").
  destruct (JsMap.has m cid) eqn:Hhas.
  - unfold JsMap.has in Hhas.
    destruct (JsMap.get m cid); [apply JsMapFacts.set_nonempty | discriminate].
  - rewrite JsMapFacts.get_set_same. apply JsMapFacts.set_nonempty.
Qed.

Lemma fold_groupNode_keyed es m :
  categoriesKeyed m -> categoriesKeyed (fold_left groupNode es m).
Proof.
  revert m. induction es as [|e es IH]; intros m Hm; simpl; [exact Hm|].
  apply IH. now apply categoriesKeyed_groupNode.
Qed.

Lemma fold_groupNode_nonempty es m :
  m <> [] -> fold_left groupNode es m <> [].
Proof.
  revert m. induction es as [|e es IH]; intros m Hm; simpl; [exact Hm|].
  apply IH. apply groupNode_nonempty.
Qed.

Lemma groupByCategory_keyed es : categoriesKeyed (groupByCategory es).
Proof.
  apply fold_groupNode_keyed. intros k c [].
Qed.

Lemma groupByCategory_nonempty es : es <> [] -> groupByCategory es <> [].
Proof.
  destruct es as [|e es]; [congruence|]. intros _.
  unfold groupByCategory. simpl.
  apply fold_groupNode_nonempty, groupNode_nonempty.
Qed.

Section SortHead.

Variable localeCompare : string -> string -> comparison.
Hypothesis consistent : consistentComparator localeCompare.

Lemma name_le_refl c : name_le localeCompare c c = true.
Proof.
  unfold name_le.
  destruct (localeCompare (cat_name c) (cat_name c)) eqn:E; try reflexivity.
  exfalso. exact (proj1 consistent _ _ E E).
Qed.

Lemma name_le_total c d :
  name_le localeCompare c d = false -> name_le localeCompare d c = true.
Proof.
  unfold name_le.
  destruct (localeCompare (cat_name c) (cat_name d)) eqn:E; try discriminate.
  intros _.
  destruct (localeCompare (cat_name d) (cat_name c)) eqn:E'; try reflexivity.
  exfalso. exact (proj1 consistent _ _ E E').
Qed.

Lemma name_le_iff c d :
  name_le localeCompare c d = true
  <-> localeCompare (cat_name c) (cat_name d) <> Gt.
Proof.
  unfold name_le.
  destruct (localeCompare (cat_name c) (cat_name d)); split;
    congruence || discriminate.
Qed.

Lemma name_le_trans c d e :
  name_le localeCompare c d = true -> name_le localeCompare d e = true ->
  name_le localeCompare c e = true.
Proof.
  rewrite !name_le_iff. apply (proj2 consistent).
Qed.

Lemma insertCategory_head c l :
  hd_error (insertCategory localeCompare c l)
  = Some match l with
         | [] => c
         | d :: _ => if name_le localeCompare c d then c else d
         end.
Proof.
  destruct l as [|d l]; simpl; [reflexivity|].
  now destruct (name_le localeCompare c d).
Qed.

(** The head of the sorted list is a least element of the input. *)
Lemma sortCategories_head cs :
  match hd_error (sortCategories localeCompare cs) with
  | None => cs = []
  | Some c => In c cs /\ forall d, In d cs -> name_le localeCompare c d = true
  end.
Proof.
  induction cs as [|a cs IH]; [reflexivity|].
  cbn [sortCategories fold_right]. fold (sortCategories localeCompare cs).
  rewrite insertCategory_head.
  destruct (sortCategories localeCompare cs) as [|d rest]; simpl in IH.
  - subst cs. split; [now left|].
    intros d [<-|[]]. apply name_le_refl.
  - destruct IH as [Hin Hmin].
    destruct (name_le localeCompare a d) eqn:L.
    + split; [now left|].
      intros x [<-|Hx]; [apply name_le_refl|].
      apply (name_le_trans a d x); auto.
    + split; [now right|].
      intros x [<-|Hx]; [now apply name_le_total | auto].
Qed.

End SortHead.

Lemma applyStoreProducts_fields localeCompare edges st :
  let nodes := match edges with Some es => es | None => [] end in
  let st' := applyStoreProducts localeCompare edges st in
  selectedStore st' = selectedStore st /\
  cart st' = cart st /\
  productsByCategory st' = groupByCategory nodes /\
  selectedCategoryId st'
  = Js.or_null
      (option_map cat_id
         (hd_error (sortCategories localeCompare
                      (JsMap.values (groupByCategory nodes))))).
Proof.
  cbv zeta. unfold applyStoreProducts. repeat split.
Qed.

Lemma string_compare_trans a b c :
  String.compare a b <> Gt -> String.compare b c <> Gt ->
  String.compare a c <> Gt.
Proof.
  revert b c. induction a as [|x a IH]; intros [|y b] [|z c]; simpl;
    try congruence.
  unfold Ascii.compare.
  destruct (N.compare_spec (N_of_ascii x) (N_of_ascii y)) as [Hxy|Hxy|Hxy];
    destruct (N.compare_spec (N_of_ascii y) (N_of_ascii z)) as [Hyz|Hyz|Hyz];
    destruct (N.compare_spec (N_of_ascii x) (N_of_ascii z)) as [Hxz|Hxz|Hxz];
    intros H1 H2; try congruence; try (exfalso; lia).
  now apply (IH b c).
Qed.

Lemma asciiCaseInsensitiveCompare_consistent :
  consistentComparator asciiCaseInsensitiveCompare.
Proof.
  unfold asciiCaseInsensitiveCompare. split.
  - intros a b H. rewrite String.compare_antisym, H. discriminate.
  - intros a b c. apply string_compare_trans.
Qed.

Example drinks_before_Food :
  let st := selectStore asciiCaseInsensitiveCompare storeA catalogFoodAndDrinks
              (updateCart productX 2 initialState) in
  JsMap.keys (productsByCategory st) = ["cat-food"; "cat-drinks"] /\
  selectedCategoryId st = Some "cat-drinks" /\
  cart st = JsMap.empty.
Proof. repeat split. Qed.

Example uncategorized_bucket :
  JsMap.keys
    (groupByCategory
       [{| rn_id := "p"; rn_slug := "p"; rn_name := "P"; rn_description := None;
           rn_category := None; rn_thumbnail := None; rn_gross := None;
           rn_variants := [] |}])
  = ["uncategorized"].
Proof. reflexivity. Qed.

(** X25. [selectStore] records the store and empties the cart.  When the
    catalog request resolves, the catalog is the grouping of the returned
    products, and the active category is none if there are no products and
    otherwise a category of the catalog whose display name is first under
    [localeCompare] (base sensitivity, taken as a consistent comparator).
    When the request fails, the store stays selected with an empty catalog
    and no active category, the error's message (or a default text) is posted
    as a notification, and [productEmptyMessage] is set to the retry text. *)
Theorem selectStore_first_category_or_retry :
  forall localeCompare : string -> string -> comparison,
    consistentComparator localeCompare ->
    forall (store : Store) (o : HttpOutcome (list RawNode)) (st : State),
      let st' := selectStore localeCompare store o st in
      selectedStore st' = Some store /\
      cart st' = JsMap.empty /\
      (forall edges,
         graphQLRequest o = Js.Resolved edges ->
         let nodes := match edges with Some es => es | None => [] end in
         productsByCategory st' = groupByCategory nodes /\
         (nodes = [] -> selectedCategoryId st' = None) /\
         (nodes <> [] ->
            exists c,
              In c (JsMap.values (productsByCategory st')) /\
              selectedCategoryId st' = Some (cat_id c) /\
              forall d, In d (JsMap.values (productsByCategory st')) ->
                        localeCompare (cat_name c) (cat_name d) <> Gt)) /\
      (forall msg,
         graphQLRequest o = Js.Rejected msg ->
         productsByCategory st' = JsMap.empty /\
         selectedCategoryId st' = None /\
         toast st'
         = {| message := if Js.truthy msg then msg
                         else "Unable to load products for this store.";
              visible := true |} /\
         productEmptyMessage st'
         = "Unable to load products. Swipe down to retry.").
Proof.
  intros localeCompare Hcons store o st st'. subst st'.
  unfold selectStore, selectStore_settle, loadStoreProducts.
  destruct (graphQLRequest o) as [edges|msg] eqn:G.
  - destruct (applyStoreProducts_fields localeCompare edges
                (selectStore_begin store st)) as [Hs [Hc [Hp Hsel]]].
    split; [now rewrite Hs|]. split; [now rewrite Hc|].
    split; [|intros msg Hmsg; discriminate].
    intros edges' Heq. inversion Heq; subst edges'. clear Heq.
    cbv zeta. split; [exact Hp|]. rewrite Hsel, Hp.
    split.
    + intros Hnil. now rewrite Hnil.
    + intros Hne.
      pose proof (sortCategories_head localeCompare Hcons
                    (JsMap.values
                       (groupByCategory
                          match edges with Some es => es | None => [] end)))
        as Hhead.
      destruct (hd_error _) as [c|] eqn:Hhd in Hhead.
      * destruct Hhead as [Hin Hmin]. exists c.
        split; [exact Hin|]. rewrite Hhd. split.
        -- simpl. unfold Js.or_null. simpl.
           apply in_map_iff in Hin. destruct Hin as [[k c'] [Hsnd Hin]].
           simpl in Hsnd. subst c'.
           destruct (groupByCategory_keyed _ k c Hin) as [Hk Htr].
           rewrite Hk. now rewrite Htr.
        -- intros d Hd. apply (name_le_iff localeCompare). now apply Hmin.
      * exfalso. apply (groupByCategory_nonempty _ Hne).
        unfold JsMap.values in Hhead. now apply map_eq_nil in Hhead.
  - split; [reflexivity|]. split; [reflexivity|].
    split; [intros edges Hres; discriminate|].
    intros msg' Heq. inversion Heq; subst msg'. repeat split.
Qed.

Lemma selectStore_first_category_or_retry_witness :
  consistentComparator asciiCaseInsensitiveCompare /\
  (exists c,
     In c (JsMap.values
             (productsByCategory
                (selectStore asciiCaseInsensitiveCompare storeA
                   catalogFoodAndDrinks initialState))) /\
     selectedCategoryId
       (selectStore asciiCaseInsensitiveCompare storeA
          catalogFoodAndDrinks initialState) = Some (cat_id c)) /\
  selectedCategoryId
    (selectStore asciiCaseInsensitiveCompare storeA
       catalogUnavailable initialState) = None.
Proof.
  split; [exact asciiCaseInsensitiveCompare_consistent|].
  split.
  - destruct (proj1 (proj2 (proj2
                (selectStore_first_category_or_retry
                   asciiCaseInsensitiveCompare
                   asciiCaseInsensitiveCompare_consistent
                   storeA catalogFoodAndDrinks initialState)))
                (Some [nodeBurger; nodeCola]) eq_refl)
      as [_ [_ Hfirst]].
    destruct (Hfirst ltac:(discriminate)) as [c [Hin [Hsel _]]].
    exists c. split; [exact Hin | exact Hsel].
  - apply (proj2 (proj2 (proj2
             (selectStore_first_category_or_retry
                asciiCaseInsensitiveCompare
                asciiCaseInsensitiveCompare_consistent
                storeA catalogUnavailable initialState)))
             "API request failed (503): Service Unavailable" eq_refl).
Defined.

(** * Further properties of the controller *)

(** ** Back navigation *)

(** X1. Back-button precedence: with the order sheet open a click only
    closes the sheet and keeps store and cart; with the sheet closed and a
    store selected it leaves the store and empties the cart; with the button
    hidden it does nothing; and after two clicks the back button is always
    hidden. *)
Theorem backButtonClick_precedence :
  forall st : State,
    (orderSheetVisible st = true ->
       backButtonClick st = setOrderSheetVisible false st) /\
    (orderSheetVisible st = false -> selectedStore st <> None ->
       backButtonClick st = exitStoreView st /\
       selectedStore (backButtonClick st) = None /\
       cart (backButtonClick st) = JsMap.empty /\
       productsByCategory (backButtonClick st) = JsMap.empty) /\
    (backButtonShouldShow st = false -> backButtonClick st = st) /\
    backButtonShouldShow (backButtonClick (backButtonClick st)) = false.
Proof.
  intros st. unfold backButtonClick, backButtonShouldShow.
  split; [|split; [|split]].
  - intros H. rewrite H. unfold closeOrderSheet, closeOrderSheet_from.
    now rewrite H.
  - intros H Hs. rewrite H.
    destruct (selectedStore st); [|congruence].
    repeat split.
  - destruct (selectedStore st); [discriminate|]. intros H. now rewrite H.
  - unfold closeOrderSheet, closeOrderSheet_from.
    destruct st as [store ? ? ? ? ? sheet ? ?]; simpl.
    destruct sheet, store; reflexivity.
Qed.

Lemma backButtonClick_precedence_witness :
  backButtonClick sessionWithOpenSheet
  = setOrderSheetVisible false sessionWithOpenSheet /\
  selectedStore (backButtonClick (backButtonClick sessionWithOpenSheet)) = None.
Proof.
  split.
  - apply (proj1 (backButtonClick_precedence sessionWithOpenSheet)).
    reflexivity.
  - apply (proj1 (proj2 (proj1 (proj2 (backButtonClick_precedence
                                         (backButtonClick sessionWithOpenSheet)))
                           eq_refl ltac:(discriminate)))).
Defined.

(** X2. While a store is selected, the "Stores" link does exactly what two
    back-button clicks do, whether or not the order sheet is open. *)
Theorem storesButtonClick_is_two_back_clicks :
  forall st : State,
    selectedStore st <> None ->
    storesButtonClick st = backButtonClick (backButtonClick st).
Proof.
  intros st Hs. unfold storesButtonClick, backButtonClick.
  unfold closeOrderSheet, closeOrderSheet_from.
  destruct st as [store ? ? ? ? ? sheet ? ?]; simpl in *.
  destruct store; [|congruence].
  destruct sheet; reflexivity.
Qed.

Lemma storesButtonClick_is_two_back_clicks_witness :
  storesButtonClick sessionWithOpenSheet
  = backButtonClick (backButtonClick sessionWithOpenSheet).
Proof.
  apply (storesButtonClick_is_two_back_clicks sessionWithOpenSheet).
  discriminate.
Defined.

(** ** More on the cart *)

Lemma JsMap_delete_set {V : Type} (m : JsMap.t V) k v :
  JsMap.delete (JsMap.set m k v) k = JsMap.delete m k.
Proof.
  induction m as [|[k' v'] m IH]; simpl.
  - now rewrite String.eqb_refl.
  - destruct (k' =? k) eqn:E; simpl.
    + now rewrite String.eqb_refl.
    + now rewrite E, IH.
Qed.

Lemma JsMap_delete_delete {V : Type} (m : JsMap.t V) k :
  JsMap.delete (JsMap.delete m k) k = JsMap.delete m k.
Proof.
  induction m as [|[k' v'] m IH]; simpl; [reflexivity|].
  destruct (k' =? k) eqn:E; simpl; [exact IH | now rewrite E, IH].
Qed.

Lemma JsMap_set_set {V : Type} (m : JsMap.t V) k v w :
  JsMap.set (JsMap.set m k v) k w = JsMap.set m k w.
Proof.
  induction m as [|[k' v'] m IH]; simpl.
  - now rewrite String.eqb_refl.
  - destruct (k' =? k) eqn:E; simpl.
    + now rewrite String.eqb_refl.
    + now rewrite E, IH.
Qed.

Lemma JsMap_set_get {V : Type} (m : JsMap.t V) k v :
  JsMap.get m k = Some v -> JsMap.set m k v = m.
Proof.
  induction m as [|[k' v'] m IH]; simpl; [discriminate|].
  destruct (k' =? k) eqn:E.
  - apply String.eqb_eq in E. intros H. inversion H. now subst.
  - intros H. now rewrite IH.
Qed.

Lemma JsMap_delete_absent {V : Type} (m : JsMap.t V) k :
  JsMap.get m k = None -> JsMap.delete m k = m.
Proof.
  induction m as [|[k' v'] m IH]; simpl; [reflexivity|].
  destruct (k' =? k); [discriminate|]. intros H. now rewrite IH.
Qed.

Lemma JsMap_keys_set_present {V : Type} (m : JsMap.t V) k v w :
  JsMap.get m k = Some w -> JsMap.keys (JsMap.set m k v) = JsMap.keys m.
Proof.
  unfold JsMap.keys.
  induction m as [|[k' v'] m IH]; simpl; [discriminate|].
  destruct (k' =? k) eqn:E; simpl.
  - apply String.eqb_eq in E. now subst.
  - intros H. now rewrite IH.
Qed.

(** X3. [updateCart] touches the entry of its own product only: every
    other key keeps its entry and the other entries keep their order; and
    repeating the same call changes nothing more. *)
Theorem updateCart_local_and_idempotent :
  forall (p : Product) (n : Z) (st : State),
    (forall k, k <> id p ->
       JsMap.get (cart (updateCart p n st)) k = JsMap.get (cart st) k) /\
    JsMap.delete (cart (updateCart p n st)) (id p)
    = JsMap.delete (cart st) (id p) /\
    updateCart p n (updateCart p n st) = updateCart p n st.
Proof.
  intros p n st. split; [|split].
  - intros k Hk. rewrite cart_updateCart.
    destruct (n <=? 0)%Z.
    + now apply JsMapFacts.get_delete_other.
    + now apply JsMapFacts.get_set_other.
  - rewrite cart_updateCart. destruct (n <=? 0)%Z.
    + apply JsMap_delete_delete.
    + apply JsMap_delete_set.
  - unfold updateCart.
    destruct (Js.truthy_opt (priceCurrency p)), (n <=? 0)%Z; simpl;
      unfold setCurrency, setCart; simpl;
      now rewrite ?JsMap_delete_delete, ?JsMap_set_set.
Qed.

Lemma updateCart_local_and_idempotent_witness :
  JsMap.get (cart (updateCart productX 0
                     (updateCartAll [(productX, 2%Z); (productEur, 1%Z)]
                        initialState)))
    "prod-e"
  = Some {| product := productEur; quantity := 1 |}.
Proof.
  rewrite (proj1 (updateCart_local_and_idempotent productX 0%Z
                    (updateCartAll [(productX, 2%Z); (productEur, 1%Z)]
                       initialState))
             "prod-e" ltac:(discriminate)).
  reflexivity.
Defined.

(** X4. Counter round trip: for a product that is in the cart with
    quantity [q >= 1], plus followed by minus gives back the very same cart,
    plus stores [q + 1] in place, and minus at quantity 1 removes the
    entry. *)
Theorem counter_round_trip :
  forall (p : Product) (q : Z) (st : State),
    JsMap.get (cart st) (id p) = Some {| product := p; quantity := q |} ->
    (1 <= q)%Z ->
    cart (counterMinusClick p (q + 1) (counterPlusClick p q st)) = cart st /\
    JsMap.get (cart (counterPlusClick p q st)) (id p)
    = Some {| product := p; quantity := q + 1 |} /\
    JsMap.keys (cart (counterPlusClick p q st)) = JsMap.keys (cart st) /\
    (q = 1%Z -> JsMap.get (cart (counterMinusClick p q st)) (id p) = None).
Proof.
  intros p q st Hget Hq. unfold counterMinusClick, counterPlusClick.
  rewrite !cart_updateCart.
  replace (q + 1 - 1)%Z with q by lia.
  destruct (q + 1 <=? 0)%Z eqn:E1; [apply Z.leb_le in E1; lia|].
  destruct (q <=? 0)%Z eqn:E2; [apply Z.leb_le in E2; lia|].
  split; [|split; [|split]].
  - rewrite JsMap_set_set. now apply JsMap_set_get.
  - apply JsMapFacts.get_set_same.
  - now apply (JsMap_keys_set_present _ _ _ _ Hget).
  - intros ->. simpl. apply JsMapFacts.get_delete_same.
Qed.

Lemma counter_round_trip_witness :
  let st := updateCart productEur 1 (updateCart productX 2 initialState) in
  cart (counterMinusClick productX 3 (counterPlusClick productX 2 st)) = cart st.
Proof.
  cbv zeta.
  apply (proj1 (counter_round_trip productX 2%Z
                  (updateCart productEur 1 (updateCart productX 2 initialState))
                  eq_refl ltac:(lia))).
Defined.

(** ** Catalog grouping *)

(** X5. Variant and price resolution of one product node: only the first
    variant counts; a node without variants gives a product that can never
    be bought, even when its price range is known; the variant's own price
    object wins over the price range, also when that object carries no
    amount; and the product can be bought exactly when the first variant has
    a non-empty identity and the resolved price has an amount. *)
Theorem productOfNode_first_variant_policy :
  forall node : RawNode,
    productOfNode node
    = productOfNode (withVariants node (firstn 1 (rn_variants node))) /\
    (rn_variants node = [] ->
       purchasable (productOfNode node) = false /\
       addButtonDisabled (productOfNode node) = true) /\
    (forall v rest,
       rn_variants node = v :: rest ->
       variantId (productOfNode node) = Js.or_null (rv_id v) /\
       (forall g, rv_gross v = Some g ->
          priceAmount (productOfNode node) = raw_amount g /\
          priceCurrency (productOfNode node) = raw_currency g) /\
       (rv_gross v = None ->
          priceAmount (productOfNode node) = opt_bind (rn_gross node) raw_amount /\
          priceCurrency (productOfNode node)
          = opt_bind (rn_gross node) raw_currency) /\
       (purchasable (productOfNode node) = true <->
          Js.truthy_opt (rv_id v) = true /\
          priceAmount (productOfNode node) <> None)).
Proof.
  intros node. split; [|split].
  - unfold productOfNode, withVariants. simpl.
    now destruct (rn_variants node) as [|v rest].
  - intros Hnil. unfold purchasable, addButtonDisabled, productOfNode.
    rewrite Hnil. simpl. split; reflexivity.
  - intros v rest Hv. unfold purchasable, productOfNode. rewrite Hv. simpl.
    split; [reflexivity|]. split; [|split].
    + intros g Hg. rewrite Hg. split; reflexivity.
    + intros Hg. rewrite Hg. split; reflexivity.
    + unfold Js.or_null.
      destruct (Js.truthy_opt (rv_id v)) eqn:Hid.
      * rewrite Hid.
        destruct (opt_bind _ raw_amount); simpl; split;
          try discriminate; try (intros [_ H]; congruence).
        now split.
      * simpl. split; [discriminate | intros [H _]; discriminate].
Qed.

Lemma productOfNode_first_variant_policy_witness :
  purchasable (productOfNode (withVariants nodeCola [])) = false /\
  priceAmount (productOfNode (withVariants nodeCola [])) = Some 5%Q.
Proof.
  split; [|reflexivity].
  apply (proj1 (proj2 (productOfNode_first_variant_policy
                         (withVariants nodeCola [])))).
  reflexivity.
Defined.

Lemma groupNode_get m node k :
  JsMap.get (groupNode m node) k
  = if categoryIdOf node =? k then
      Some match JsMap.get m k with
           | Some c =>
               {| cat_id := cat_id c; cat_name := cat_name c;
                  products := (products c ++ [productOfNode node])%list |}
           | None =>
               {| cat_id := k; cat_name := categoryNameOf node;
                  products := [productOfNode node] |}
           end
    else JsMap.get m k.
Proof.
  unfold groupNode.
  change (Js.or_str (opt_bind (rn_category node) rc_id) "uncategorized")
    with (categoryIdOf node).
  change (Js.or_str (opt_bind (rn_category node) rc_name) "Menu")
    with (categoryNameOf node).
  unfold JsMap.has.
  destruct (JsMap.get m (categoryIdOf node)) as [c|] eqn:G.
  - rewrite G. destruct (categoryIdOf node =? k) eqn:E.
    + apply String.eqb_eq in E. subst k.
      now rewrite JsMapFacts.get_set_same, G.
    + apply String.eqb_neq in E.
      apply JsMapFacts.get_set_other. congruence.
  - rewrite JsMapFacts.get_set_same. simpl.
    destruct (categoryIdOf node =? k) eqn:E.
    + apply String.eqb_eq in E. subst k.
      now rewrite JsMapFacts.get_set_same, G.
    + apply String.eqb_neq in E.
      rewrite !JsMapFacts.get_set_other by congruence. reflexivity.
Qed.

Lemma fold_groupNode_get es :
  forall m k,
    JsMap.get (fold_left groupNode es m) k
    = match JsMap.get m k with
      | Some c =>
          Some {| cat_id := cat_id c; cat_name := cat_name c;
                  products :=
                    (products c ++ map productOfNode (nodesOfCategory k es))%list |}
      | None =>
          match nodesOfCategory k es with
          | [] => None
          | node :: rest =>
              Some {| cat_id := k; cat_name := categoryNameOf node;
                      products := map productOfNode (node :: rest) |}
          end
      end.
Proof.
  induction es as [|node es IH]; intros m k.
  - simpl. destruct (JsMap.get m k) as [[i n ps]|]; [|reflexivity].
    simpl. now rewrite app_nil_r.
  - cbn [fold_left]. rewrite IH, groupNode_get.
    unfold nodesOfCategory. cbn [filter].
    destruct (categoryIdOf node =? k) eqn:E.
    + destruct (JsMap.get m k) as [c|]; cbn.
      * now rewrite <- app_assoc.
      * reflexivity.
    + reflexivity.
Qed.

Lemma groupNode_NoDup m node :
  NoDup (JsMap.keys m) -> NoDup (JsMap.keys (groupNode m node)).
Proof.
  intros H. unfold groupNode.
  destruct (JsMap.has m _).
  - destruct (JsMap.get m _); [now apply JsMapFacts.NoDup_keys_set | exact H].
  - rewrite JsMapFacts.get_set_same.
    now apply JsMapFacts.NoDup_keys_set, JsMapFacts.NoDup_keys_set.
Qed.

Lemma groupByCategory_NoDup es : NoDup (JsMap.keys (groupByCategory es)).
Proof.
  unfold groupByCategory.
  assert (H : NoDup (JsMap.keys (@JsMap.empty Category))) by constructor.
  revert H. generalize (@JsMap.empty Category) as m.
  induction es as [|e es IH]; intros m H; simpl; [exact H|].
  apply IH. now apply groupNode_NoDup.
Qed.

Lemma catalogProducts_set_present m k c0 c :
  JsMap.get m k = Some c0 ->
  Permutation (catalogProducts (JsMap.set m k c) ++ products c0)
              (catalogProducts m ++ products c).
Proof.
  unfold catalogProducts.
  induction m as [|[k' v'] m IH]; simpl; [discriminate|].
  destruct (k' =? k) eqn:E; simpl; intros H.
  - inversion H; subst v'.
    rewrite <- app_assoc.
    etransitivity; [apply Permutation_app_comm|].
    apply Permutation_app_tail, Permutation_app_comm.
  - rewrite <- !app_assoc. apply Permutation_app_head. now apply IH.
Qed.

Lemma catalogProducts_set_absent m k c :
  JsMap.get m k = None ->
  catalogProducts (JsMap.set m k c) = (catalogProducts m ++ products c)%list.
Proof.
  unfold catalogProducts.
  induction m as [|[k' v'] m IH]; simpl.
  - intros _. now rewrite app_nil_r.
  - destruct (k' =? k); [discriminate|]. simpl. intros H.
    now rewrite IH, app_assoc.
Qed.

Lemma catalogProducts_groupNode m node :
  Permutation (catalogProducts (groupNode m node))
              (productOfNode node :: catalogProducts m).
Proof.
  unfold groupNode. unfold JsMap.has.
  set (cid := Js.or_str (opt_bind (rn_category node) rc_id) "uncategorized").
  set (cname := Js.or_str (opt_bind (rn_category node) rc_name) "Menu").
  destruct (JsMap.get m cid) as [c|] eqn:G.
  - rewrite G.
    pose proof (catalogProducts_set_present m cid c
                  {| cat_id := cat_id c; cat_name := cat_name c;
                     products := (products c ++ [productOfNode node])%list |} G)
      as HP.
    simpl in HP. rewrite app_assoc in HP.
    apply Permutation_app_inv_r with (l := products c).
    etransitivity; [exact HP|].
    simpl. symmetry. apply Permutation_cons_append.
  - rewrite JsMapFacts.get_set_same, JsMap_set_set. simpl.
    rewrite (catalogProducts_set_absent m cid _ G). simpl.
    symmetry. apply Permutation_cons_append.
Qed.

Lemma catalogProducts_fold es :
  forall m,
    Permutation (catalogProducts (fold_left groupNode es m))
                (catalogProducts m ++ map productOfNode es).
Proof.
  induction es as [|e es IH]; intros m; simpl.
  - now rewrite app_nil_r.
  - etransitivity; [apply IH|].
    etransitivity;
      [apply Permutation_app_tail, catalogProducts_groupNode|].
    simpl. apply Permutation_middle.
Qed.

Lemma groupByCategory_get edges k :
  JsMap.get (groupByCategory edges) k
  = match nodesOfCategory k edges with
    | [] => None
    | node :: rest =>
        Some {| cat_id := k; cat_name := categoryNameOf node;
                products := map productOfNode (node :: rest) |}
    end.
Proof.
  unfold groupByCategory. now rewrite fold_groupNode_get.
Qed.

Example grouping_keeps_response_order :
  option_map (fun c => map id (products c))
    (JsMap.get (groupByCategory [nodeBurger; nodeCola; withVariants nodeBurger []])
       "cat-food")
  = Some ["prod-burger"; "prod-burger"].
Proof. reflexivity. Qed.

(** X6. Grouping the catalog response: the category map has one key per
    category; under each key sit exactly the products of the nodes of that
    category, in response order, named after the first such node (no key for
    a category without nodes); and over all categories every returned product
    appears once, none is lost or repeated. *)
Theorem groupByCategory_partitions_products :
  forall edges : list RawNode,
    NoDup (JsMap.keys (groupByCategory edges)) /\
    (forall k,
       JsMap.get (groupByCategory edges) k
       = match nodesOfCategory k edges with
         | [] => None
         | node :: rest =>
             Some {| cat_id := k; cat_name := categoryNameOf node;
                     products := map productOfNode (node :: rest) |}
         end) /\
    Permutation (catalogProducts (groupByCategory edges))
                (map productOfNode edges) /\
    length (catalogProducts (groupByCategory edges)) = length edges.
Proof.
  intros edges.
  assert (HP : Permutation (catalogProducts (groupByCategory edges))
                           (map productOfNode edges)).
  { unfold groupByCategory.
    apply (catalogProducts_fold edges JsMap.empty). }
  split; [apply groupByCategory_NoDup|]. split; [|split; [exact HP|]].
  - intros k. apply groupByCategory_get.
  - rewrite (Permutation_length HP). apply length_map.
Qed.

(** ** Category tabs *)

Lemma insertCategory_perm cmp c l :
  Permutation (insertCategory cmp c l) (c :: l).
Proof.
  induction l as [|d l IH]; simpl; [reflexivity|].
  destruct (name_le cmp c d); [reflexivity|].
  etransitivity; [apply perm_skip, IH | apply perm_swap].
Qed.

Lemma sortCategories_perm cmp cs : Permutation (sortCategories cmp cs) cs.
Proof.
  induction cs as [|c cs IH]; simpl; [reflexivity|].
  etransitivity; [apply insertCategory_perm | now apply perm_skip].
Qed.

Section SortedTabs.

Variable localeCompare : string -> string -> comparison.
Hypothesis consistent : consistentComparator localeCompare.

Let le (a b : Category) : Prop := name_le localeCompare a b = true.

Lemma insertCategory_sorted c l :
  StronglySorted le l -> StronglySorted le (insertCategory localeCompare c l).
Proof.
  induction l as [|d l IH]; intros Hs; simpl.
  - constructor; [constructor | constructor].
  - inversion Hs as [|? ? Hl Hall]; subst.
    destruct (name_le localeCompare c d) eqn:L.
    + constructor; [exact Hs|].
      constructor; [exact L|].
      rewrite Forall_forall in *. intros x Hx.
      exact (name_le_trans localeCompare consistent c d x L (Hall x Hx)).
    + constructor; [exact (IH Hl)|].
      rewrite Forall_forall in *. intros x Hx.
      apply (Permutation_in _ (insertCategory_perm localeCompare c l)) in Hx.
      destruct Hx as [<-|Hx]; [|exact (Hall x Hx)].
      exact (name_le_total localeCompare consistent c d L).
Qed.

Lemma sortCategories_sorted cs :
  StronglySorted le (sortCategories localeCompare cs).
Proof.
  induction cs as [|c cs IH]; simpl; [constructor|].
  now apply insertCategory_sorted.
Qed.

Lemma insertCategory_stable x c l :
  filter (sameRank localeCompare x) (insertCategory localeCompare c l)
  = if sameRank localeCompare x c
    then c :: filter (sameRank localeCompare x) l
    else filter (sameRank localeCompare x) l.
Proof.
  induction l as [|d l IH]; simpl.
  - now destruct (sameRank localeCompare x c).
  - destruct (name_le localeCompare c d) eqn:L; simpl.
    + now destruct (sameRank localeCompare x c).
    + rewrite IH.
      destruct (sameRank localeCompare x c) eqn:Hc;
        destruct (sameRank localeCompare x d) eqn:Hd; try reflexivity.
      exfalso. unfold sameRank in Hc, Hd.
      apply andb_true_iff in Hc, Hd. destruct Hc as [_ Hcx], Hd as [Hxd _].
      rewrite (name_le_trans localeCompare consistent c x d Hcx Hxd) in L.
      discriminate.
Qed.

End SortedTabs.

(** X7. The category tabs ([categories]): sorting rearranges the
    categories without adding or dropping one; under a consistent comparator
    the result is in non-decreasing order of display name, and categories
    whose names compare equal keep the order they had in the catalog. *)
Theorem sortCategories_sorted_stable_permutation :
  forall (localeCompare : string -> string -> comparison) (cs : list Category),
    Permutation (sortCategories localeCompare cs) cs /\
    (consistentComparator localeCompare ->
     StronglySorted (fun a b => localeCompare (cat_name a) (cat_name b) <> Gt)
       (sortCategories localeCompare cs) /\
     forall x,
       filter (sameRank localeCompare x) (sortCategories localeCompare cs)
       = filter (sameRank localeCompare x) cs).
Proof.
  intros localeCompare cs. split; [apply sortCategories_perm|].
  intros Hcons. split.
  - pose proof (sortCategories_sorted localeCompare Hcons cs) as Hs.
    induction Hs as [|a l Hs IH Hall]; constructor; [exact IH|].
    rewrite Forall_forall in *. intros x Hx.
    apply (name_le_iff localeCompare). now apply Hall.
  - intros x. induction cs as [|c cs IH]; [reflexivity|].
    cbn [sortCategories fold_right]. fold (sortCategories localeCompare cs).
    rewrite (insertCategory_stable localeCompare Hcons), IH.
    reflexivity.
Qed.

Lemma sortCategories_sorted_stable_permutation_witness :
  map cat_id
    (filter (sameRank asciiCaseInsensitiveCompare
               {| cat_id := "x"; cat_name := "MENU"; products := [] |})
       (sortCategories asciiCaseInsensitiveCompare
          [ {| cat_id := "a"; cat_name := "menu"; products := [] |};
            {| cat_id := "b"; cat_name := "Drinks"; products := [] |};
            {| cat_id := "c"; cat_name := "Menu"; products := [] |} ]))
  = ["a"; "c"].
Proof.
  rewrite (proj2 (proj2 (sortCategories_sorted_stable_permutation
                           asciiCaseInsensitiveCompare _)
                    asciiCaseInsensitiveCompare_consistent)).
  reflexivity.
Defined.

Lemma in_get_NoDup {V : Type} (m : JsMap.t V) k v :
  NoDup (JsMap.keys m) -> In (k, v) m -> JsMap.get m k = Some v.
Proof.
  induction m as [|[k' v'] m IH]; simpl; intros Hnd Hin; [easy|].
  inversion Hnd as [|? ? Hnotin Hnd']; subst.
  destruct Hin as [Heq|Hin].
  - inversion Heq; subst. now rewrite String.eqb_refl.
  - destruct (k' =? k) eqn:E; [|auto].
    apply String.eqb_eq in E. subst k'. exfalso. apply Hnotin.
    change k with (fst (k, v)). now apply in_map.
Qed.

(** X8. After a catalog load that returned at least one product, whatever
    the comparator, the active category is the first category tab, it
    resolves to a category of the catalog, and that category has products:
    the product grid is not empty. *)
Theorem selectStore_active_category_resolves :
  forall (localeCompare : string -> string -> comparison)
         (store : Store) (o : HttpOutcome (list RawNode)) (st : State)
         (node : RawNode) (rest : list RawNode),
    graphQLRequest o = Js.Resolved (Some (node :: rest)) ->
    let st' := selectStore localeCompare store o st in
    exists c,
      hd_error (sortCategories localeCompare
                  (JsMap.values (productsByCategory st'))) = Some c /\
      selectedCategoryId st' = Some (cat_id c) /\
      selectedCategory st' = Some c /\
      productGrid st' = products c /\
      products c <> [].
Proof.
  intros localeCompare store o st node rest Hres st'. subst st'.
  unfold selectStore, selectStore_settle, loadStoreProducts. rewrite Hres.
  destruct (applyStoreProducts_fields localeCompare (Some (node :: rest))
              (selectStore_begin store st)) as [_ [_ [Hp Hsel]]].
  cbv zeta in Hp, Hsel.
  set (st' := applyStoreProducts localeCompare (Some (node :: rest))
                (selectStore_begin store st)) in *.
  set (m := groupByCategory (node :: rest)) in *.
  destruct (sortCategories localeCompare (JsMap.values m)) as [|c tl] eqn:Hsort.
  - exfalso.
    pose proof (sortCategories_perm localeCompare (JsMap.values m)) as HP.
    rewrite Hsort in HP. apply Permutation_nil in HP.
    unfold JsMap.values in HP. apply map_eq_nil in HP.
    now apply (groupByCategory_nonempty (node :: rest)).
  - assert (Hin : In c (JsMap.values m)).
    { apply (Permutation_in _ (sortCategories_perm localeCompare _)).
      rewrite Hsort. now left. }
    apply in_map_iff in Hin. destruct Hin as [[k c'] [Hsnd Hin]].
    simpl in Hsnd. subst c'.
    destruct (groupByCategory_keyed _ k c Hin) as [Hk Htr].
    assert (Hget : JsMap.get m k = Some c)
      by (apply in_get_NoDup; [apply groupByCategory_NoDup | exact Hin]).
    assert (Hid : selectedCategoryId st' = Some (cat_id c)).
    { rewrite Hsel. simpl. unfold Js.or_null. simpl. now rewrite Hk, Htr. }
    assert (Hcat : selectedCategory st' = Some c).
    { unfold selectedCategory. now rewrite Hid, Hk, Htr, Hp. }
    exists c. rewrite Hp. fold m. rewrite Hsort.
    split; [reflexivity|]. split; [exact Hid|]. split; [exact Hcat|].
    split; [unfold productGrid; now rewrite Hcat|].
    unfold m in Hget. rewrite groupByCategory_get in Hget.
    destruct (nodesOfCategory k (node :: rest)); [discriminate|].
    injection Hget as Hc. rewrite <- Hc. simpl. discriminate.
Qed.

Lemma selectStore_active_category_resolves_witness :
  exists c,
    selectedCategory
      (selectStore asciiCaseInsensitiveCompare storeA catalogFoodAndDrinks
         initialState) = Some c /\
    products c <> [].
Proof.
  destruct (selectStore_active_category_resolves asciiCaseInsensitiveCompare
              storeA catalogFoodAndDrinks initialState nodeBurger [nodeCola]
              eq_refl)
    as [c [_ [_ [Hc [_ Hne]]]]].
  exists c. split; [exact Hc | exact Hne].
Defined.

(** ** Summary, main button and submit button *)

Lemma last_cons_default {A : Type} (x d : A) (l : list A) :
  last (x :: l) d = last l x.
Proof.
  revert x d. induction l as [|y l IH]; intros x d; [reflexivity|].
  change (last (x :: y :: l) d) with (last (y :: l) d).
  now rewrite (IH y d), (IH y x).
Qed.

Lemma summarize_step_currency es acc :
  acc_currency (fold_left summarize_step es acc)
  = last (filter Js.truthy_opt
            (map (fun e => priceCurrency (product e)) (filter priced es)))
         (acc_currency acc).
Proof.
  revert acc. induction es as [|e es IH]; intros acc; [reflexivity|].
  cbn [fold_left filter]. rewrite IH.
  unfold summarize_step, priced.
  destruct (priceAmount (product e)) as [price|]; [|reflexivity].
  cbn [map filter acc_currency]. unfold Js.or_opt.
  destruct (Js.truthy_opt (priceCurrency (product e))); [|reflexivity].
  now rewrite last_cons_default.
Qed.

Example summary_currency_follows_cart_order :
  let st := updateCartAll [(productX, 1%Z); (productEur, 1%Z); (productX, 3%Z)]
              initialState in
  currency st = Some "USD" /\
  currency_label (total (summarizeCart st)) = "EUR".
Proof. split; reflexivity. Qed.

(** X9. Currency of the summary: it is the currency of the last cart
    entry, in insertion order, that has a price and a non-empty currency; if
    there is none it is the inferred currency kept in the state, and "USD"
    when that is unset too.  It is never blank. *)
Theorem summarizeCart_currency_inference :
  forall st : State,
    currency_label (total (summarizeCart st))
    = Js.or_str
        (last (filter Js.truthy_opt
                 (map (fun e => priceCurrency (product e))
                    (pricedEntries (cart st))))
              (currency st))
        "USD" /\
    currency_label (total (summarizeCart st)) <> "".
Proof.
  intros st.
  assert (H : currency_label (total (summarizeCart st))
              = Js.or_str
                  (last (filter Js.truthy_opt
                           (map (fun e => priceCurrency (product e))
                              (pricedEntries (cart st))))
                        (currency st))
                  "USD").
  { unfold summarizeCart, summarize_entries, pricedEntries. simpl.
    now rewrite summarize_step_currency. }
  split; [exact H|]. rewrite H.
  assert (Ht : Js.truthy
                 (Js.or_str
                    (last (filter Js.truthy_opt
                             (map (fun e => priceCurrency (product e))
                                (pricedEntries (cart st))))
                          (currency st)) "USD") = true)
    by (apply or_str_truthy; reflexivity).
  intros Heq. rewrite Heq in Ht. discriminate.
Qed.

Lemma sumZ_positive xs :
  (forall x, In x xs -> (1 <= x)%Z) -> xs <> [] -> (0 < sumZ xs)%Z.
Proof.
  induction xs as [|x xs IH]; intros Hall Hne; [congruence|].
  simpl. assert (1 <= x)%Z by (apply Hall; now left).
  destruct xs as [|y ys]; [simpl; lia|].
  assert (0 < sumZ (y :: ys))%Z.
  { apply IH; [|discriminate]. intros z Hz. apply Hall. now right. }
  lia.
Qed.

Lemma items_zero_iff st :
  quantitiesPositive (cart st) ->
  (items (summarizeCart st) = 0%Z <-> pricedEntries (cart st) = []).
Proof.
  intros Hpos. unfold summarizeCart, summarize_entries. simpl.
  destruct (summarize_step_fold (JsMap.values (cart st))
              {| acc_items := 0; acc_amount := 0%Q; acc_currency := currency st |})
    as [HI _].
  rewrite HI. simpl. fold (pricedEntries (cart st)).
  split.
  - intros Hz. destruct (pricedEntries (cart st)) as [|e es] eqn:E; [reflexivity|].
    exfalso.
    assert (0 < sumZ (map quantity (e :: es)))%Z.
    { apply sumZ_positive; [|discriminate].
      intros x Hx. apply in_map_iff in Hx. destruct Hx as [e' [<- He']].
      rewrite <- E in He'. unfold pricedEntries in He'.
      apply filter_In in He'. destruct He' as [He' _].
      apply in_map_iff in He'. destruct He' as [[k e''] [Hs Hin]].
      simpl in Hs. subst e''. now apply (Hpos k). }
    lia.
  - intros ->. reflexivity.
Qed.

(** X10. The main button: outside Telegram nothing is sent to it.  Inside,
    for a cart whose quantities are all at least 1, it is hidden exactly when
    no entry has a price and otherwise shown, enabled, labelled with the
    formatted total. *)
Theorem syncMainButton_projection :
  forall (h : Host) (styles : Styles) (st : State),
    syncMainButton false h styles st = [] /\
    (quantitiesPositive (cart st) ->
     (pricedEntries (cart st) = [] ->
        syncMainButton true h styles st
        = [ MainHide;
            MainSetParams
              {| mb_text := None; mb_bgColor := None; mb_textColor := None;
                 mb_isVisible := Some false; mb_isEnabled := None |} ]) /\
     (pricedEntries (cart st) <> [] ->
        exists params,
          syncMainButton true h styles st = [MainSetParams params; MainShow] /\
          mb_isVisible params = Some true /\
          mb_isEnabled params = Some true /\
          mb_text params
          = Some ("Review order · " ++
                  formatMoney h (amount (total (summarizeCart st)))
                    (currency_label (total (summarizeCart st)))))).
Proof.
  intros h styles st. split; [reflexivity|].
  intros Hpos. pose proof (items_zero_iff st Hpos) as Hiff.
  unfold syncMainButton. cbn [negb].
  split.
  - intros Hnil. apply Hiff in Hnil. now rewrite Hnil.
  - intros Hne.
    destruct (items (summarizeCart st) =? 0)%Z eqn:E.
    + apply Z.eqb_eq in E. apply Hiff in E. contradiction.
    + eexists. split; [reflexivity|]. repeat split.
Qed.

Lemma syncMainButton_projection_witness :
  syncMainButton true hostGuest stylesPlain
    (updateCart productUnpriced 2 initialState)
  = [ MainHide;
      MainSetParams
        {| mb_text := None; mb_bgColor := None; mb_textColor := None;
           mb_isVisible := Some false; mb_isEnabled := None |} ] /\
  miniCartRendered (updateCart productUnpriced 2 initialState) = true.
Proof.
  split; [|reflexivity].
  apply (proj2 (syncMainButton_projection hostGuest stylesPlain
                  (updateCart productUnpriced 2 initialState))).
  - intros k e [Heq|[]]. inversion Heq. simpl. lia.
  - reflexivity.
Defined.

(** ** What clicks can do to the cart *)

Lemma updateCart_catalog p n st :
  productsByCategory (updateCart p n st) = productsByCategory st.
Proof.
  unfold updateCart. now destruct (Js.truthy_opt (priceCurrency p)).
Qed.

Lemma cartFromCatalog_updateCart p n st :
  cartFromCatalog st ->
  purchasable p = true ->
  In p (catalogProducts (productsByCategory st)) ->
  cartFromCatalog (updateCart p n st).
Proof.
  intros [Hnd Hall] Hp Hin. unfold cartFromCatalog.
  rewrite updateCart_catalog, cart_updateCart.
  destruct (n <=? 0)%Z eqn:Hn.
  - split; [now apply JsMapFacts.NoDup_keys_delete|].
    intros k e He. apply JsMapFacts.in_delete in He. now apply Hall.
  - apply Z.leb_gt in Hn.
    split; [now apply JsMapFacts.NoDup_keys_set|].
    intros k e He. apply JsMapFacts.in_set in He.
    destruct He as [Heq|He]; [|now apply Hall].
    inversion Heq; subst; simpl. repeat split; auto. lia.
Qed.

Lemma cartFromCatalog_same st st' :
  cart st' = cart st ->
  productsByCategory st' = productsByCategory st ->
  cartFromCatalog st -> cartFromCatalog st'.
Proof.
  unfold cartFromCatalog. intros -> ->. auto.
Qed.

Lemma cartFromCatalog_empty st : cart st = JsMap.empty -> cartFromCatalog st.
Proof.
  unfold cartFromCatalog. intros ->. split; [constructor | intros k e []].
Qed.

Lemma productGrid_in_catalog st i p :
  nth_error (productGrid st) i = Some p ->
  In p (catalogProducts (productsByCategory st)).
Proof.
  unfold productGrid, selectedCategory. intros Hnth.
  destruct (selectedCategoryId st) as [k|]; [|now destruct i].
  destruct (Js.truthy k); [|now destruct i].
  destruct (JsMap.get (productsByCategory st) k) as [c|] eqn:G;
    [|now destruct i].
  apply nth_error_In in Hnth. apply JsMapFacts.get_in in G.
  unfold catalogProducts. apply in_flat_map. exists c. split; [|exact Hnth].
  unfold JsMap.values. change c with (snd (k, c)). now apply in_map.
Qed.

Lemma addButtonDisabled_purchasable p :
  addButtonDisabled p = negb (purchasable p).
Proof.
  unfold addButtonDisabled, purchasable.
  destruct (Js.truthy_opt (variantId p)), (priceAmount p); reflexivity.
Qed.

Lemma uiStep_invariant st ev :
  catalogConsistent (productsByCategory st) /\ cartFromCatalog st ->
  catalogConsistent (productsByCategory (uiStep st ev)) /\
  cartFromCatalog (uiStep st ev).
Proof.
  intros [Hcons Hinv].
  assert (Hreset : forall s,
             catalogConsistent (productsByCategory (exitStoreView s)) /\
             cartFromCatalog (exitStoreView s)).
  { intros s. split; [intros p p' []|]. now apply cartFromCatalog_empty. }
  assert (Hcard : forall (button : Product -> Z -> State -> State) i,
             (forall p q, button p q st = updateCart p (q - 1) st \/
                          button p q st = updateCart p (q + 1) st) ->
             catalogConsistent
               (productsByCategory (cardCounterClick button i st)) /\
             cartFromCatalog (cardCounterClick button i st)).
  { intros button i Hb. unfold cardCounterClick.
    destruct (nth_error (productGrid st) i) as [p|] eqn:Hnth; [|now split].
    destruct (JsMap.get (cart st) (id p)) as [e|] eqn:G; [|now split].
    pose proof (productGrid_in_catalog st i p Hnth) as Hp.
    apply JsMapFacts.get_in in G.
    destruct (proj2 Hinv _ _ G) as [Hid [_ [Hpe Hine]]].
    assert (Hpur : purchasable p = true)
      by (rewrite (Hcons p (product e) Hp Hine Hid); exact Hpe).
    destruct (Hb p (quantity e)) as [-> | ->];
      (split; [now rewrite updateCart_catalog
              | now apply cartFromCatalog_updateCart]). }
  assert (Hline : forall (button : Product -> Z -> State -> State) i,
             (forall p q, button p q st = updateCart p (q - 1) st \/
                          button p q st = updateCart p (q + 1) st) ->
             catalogConsistent
               (productsByCategory (lineCounterClick button i st)) /\
             cartFromCatalog (lineCounterClick button i st)).
  { intros button i Hb. unfold lineCounterClick.
    destruct (orderLinesRendered st); [|now split].
    destruct (nth_error (JsMap.values (cart st)) i) as [e|] eqn:Hnth;
      [|now split].
    apply nth_error_In in Hnth. apply in_map_iff in Hnth.
    destruct Hnth as [[k e'] [Hs Hin]]. simpl in Hs. subst e'.
    destruct (proj2 Hinv _ _ Hin) as [_ [_ [Hpe Hine]]].
    destruct (Hb (product e) (quantity e)) as [-> | ->];
      (split; [now rewrite updateCart_catalog
              | now apply cartFromCatalog_updateCart]). }
  destruct ev as [i|i|i|i|i|i| | | | |]; cbn [uiStep].
  - destruct (nth_error (productGrid st) i) as [p|] eqn:Hnth; [|now split].
    unfold addButtonClick.
    destruct (JsMap.get (cart st) (id p)); [now split|].
    rewrite addButtonDisabled_purchasable.
    destruct (purchasable p) eqn:Hp; simpl; [|now split].
    split; [now rewrite updateCart_catalog|].
    apply cartFromCatalog_updateCart; auto.
    now apply (productGrid_in_catalog st i).
  - apply Hcard. intros p q. now left.
  - apply Hcard. intros p q. now right.
  - apply Hline. intros p q. now left.
  - apply Hline. intros p q. now right.
  - destruct (nth_error (JsMap.values (productsByCategory st)) i); now split.
  - unfold miniCartClick, openOrderSheet.
    destruct (miniCartRendered st), (orderSheetVisible st); now split.
  - unfold mainButtonClick, openOrderSheet.
    destruct (0 <? JsMap.size (cart st))%nat, (orderSheetVisible st); now split.
  - unfold closeOrderSheet, closeOrderSheet_from.
    destruct (orderSheetVisible st); now split.
  - unfold backButtonClick, closeOrderSheet, closeOrderSheet_from.
    destruct (orderSheetVisible st); [now split|].
    destruct (selectedStore st); [apply Hreset | now split].
  - unfold storesButtonClick. apply Hreset.
Qed.

Example clicks_on_cards_and_lines :
  let st := selectStore asciiCaseInsensitiveCompare storeA catalogFoodAndDrinks
              initialState in
  map (fun kv => (fst kv, quantity (snd kv)))
    (cart (uiRun [CardAdd 0; CardPlus 0; TabClick 0; CardAdd 0; MiniCartClick;
                  LineMinus 1; LinePlus 0]
             st))
  = [("prod-cola", 3%Z)].
Proof. reflexivity. Qed.

(** X11. Starting from an empty cart in a catalog whose products agree on
    purchasability per identity, no sequence of clicks (Add buttons,
    counters on cards and order lines, tabs, sheet, back and "Stores") ever
    puts a product into the cart that cannot be bought: every entry is filed
    under its product's identity, holds a purchasable product and a quantity
    of at least 1, and identities are not repeated. *)
Theorem uiRun_keeps_cart_purchasable :
  forall (evs : list UiEvent) (st : State),
    cart st = JsMap.empty ->
    catalogConsistent (productsByCategory st) ->
    NoDup (JsMap.keys (cart (uiRun evs st))) /\
    forall k e,
      In (k, e) (cart (uiRun evs st)) ->
      k = id (product e) /\
      (1 <= quantity e)%Z /\
      purchasable (product e) = true.
Proof.
  intros evs st Hempty Hcons.
  assert (H : catalogConsistent (productsByCategory (uiRun evs st)) /\
              cartFromCatalog (uiRun evs st)).
  { unfold uiRun.
    assert (H0 : catalogConsistent (productsByCategory st) /\ cartFromCatalog st)
      by (split; [exact Hcons | now apply cartFromCatalog_empty]).
    clear Hempty Hcons. revert st H0.
    induction evs as [|ev evs IH]; intros st H0; [exact H0|].
    simpl. apply IH. now apply uiStep_invariant. }
  destruct H as [_ [Hnd Hall]]. split; [exact Hnd|].
  intros k e Hin. destruct (Hall k e Hin) as [Hk [Hq [Hp _]]]. auto.
Qed.

Lemma uiRun_keeps_cart_purchasable_witness :
  cart sessionInStoreA = JsMap.empty /\
  NoDup (JsMap.keys
           (cart (uiRun [CardAdd 0; CardPlus 0; TabClick 0; CardAdd 0; CardAdd 7]
                    sessionInStoreA))).
Proof.
  split; [reflexivity|].
  apply (proj1 (uiRun_keeps_cart_purchasable
                  [CardAdd 0; CardPlus 0; TabClick 0; CardAdd 0; CardAdd 7]
                  sessionInStoreA eq_refl
                  ltac:(intros p p' [<-|[<-|[]]] [<-|[<-|[]]] H;
                        reflexivity || discriminate H))).
Defined.

(** ** The request and the success path of a submission *)

Lemma lineOf_spec e :
  lineOf e
  = if purchasable (product e)
    then [{| line_quantity := quantity e;
             line_variantId := Js.join_elt (variantId (product e)) |}]
    else [].
Proof.
  unfold lineOf, pushLine, purchasable.
  destruct (variantId (product e)) as [v|]; simpl; [|reflexivity].
  destruct (priceAmount (product e)); simpl.
  - rewrite andb_true_r. now destruct (Js.truthy v).
  - now rewrite andb_false_r.
Qed.

Lemma orderLines_purchasableEntries m :
  orderLines m
  = map (fun e => {| line_quantity := quantity e;
                     line_variantId := Js.join_elt (variantId (product e)) |})
      (purchasableEntries m).
Proof.
  rewrite orderLines_flat_map. unfold purchasableEntries.
  induction (JsMap.values m) as [|e es IH]; [reflexivity|].
  cbn [flat_map filter]. rewrite IH, lineOf_spec.
  now destruct (purchasable (product e)).
Qed.

Lemma submitOrder_begin_sent h st st1 req :
  submitOrder_begin h st = (st1, Some req) ->
  isSubmitting st = false /\
  st1 = setIsSubmitting true st /\
  req_lines req = orderLines (cart st) /\
  req_lines req <> [] /\
  req_channel req = saleorChannel h.
Proof.
  unfold submitOrder_begin.
  destruct (isSubmitting st); [discriminate|].
  destruct (orderLines (cart st)) as [|l ls] eqn:E; [discriminate|].
  intros H. inversion H; subst. simpl. repeat split. discriminate.
Qed.

(** X12. The request that [submitOrder] sends: its lines are exactly the
    purchasable cart entries, in cart order, each with the entry's quantity
    and its product's variant identity, which is never blank; there is at
    least one line; and with cart quantities of at least 1 every line
    quantity is at least 1. *)
Theorem submitOrder_lines_are_purchasable_entries :
  forall (h : Host) (st st1 : State) (req : CheckoutRequest),
    submitOrder_begin h st = (st1, Some req) ->
    req_lines req
    = map (fun e => {| line_quantity := quantity e;
                       line_variantId := Js.join_elt (variantId (product e)) |})
        (purchasableEntries (cart st)) /\
    req_lines req <> [] /\
    req_channel req = saleorChannel h /\
    (forall l, In l (req_lines req) -> Js.truthy (line_variantId l) = true) /\
    (quantitiesPositive (cart st) ->
     forall l, In l (req_lines req) -> (1 <= line_quantity l)%Z).
Proof.
  intros h st st1 req Hbegin.
  destruct (submitOrder_begin_sent h st st1 req Hbegin)
    as [_ [_ [Hlines [Hne Hch]]]].
  rewrite orderLines_purchasableEntries in Hlines.
  split; [exact Hlines|]. split; [exact Hne|]. split; [exact Hch|].
  rewrite Hlines. split.
  - intros l Hl. apply in_map_iff in Hl. destruct Hl as [e [<- He]].
    apply filter_In in He. destruct He as [_ Hp]. simpl.
    unfold purchasable in Hp. apply andb_true_iff in Hp. destruct Hp as [Hv _].
    destruct (variantId (product e)); [exact Hv | discriminate].
  - intros Hpos l Hl. apply in_map_iff in Hl. destruct Hl as [e [<- He]].
    apply filter_In in He. destruct He as [He _]. simpl.
    apply in_map_iff in He. destruct He as [[k e'] [Hs Hin]].
    simpl in Hs. subst e'. now apply (Hpos k).
Qed.

Lemma submitOrder_lines_are_purchasable_entries_witness :
  option_map req_lines
    (snd (submitOrder_begin hostGuest
            (updateCartAll [(productUnpriced, 1%Z); (productX, 2%Z);
                            (productNoVariant, 1%Z); (productEur, 3%Z)]
               initialState)))
  = Some [ {| line_quantity := 2; line_variantId := "var-x" |};
           {| line_quantity := 3; line_variantId := "var-e" |} ].
Proof.
  destruct (submitOrder_begin hostGuest
              (updateCartAll [(productUnpriced, 1%Z); (productX, 2%Z);
                              (productNoVariant, 1%Z); (productEur, 3%Z)]
                 initialState)) as [st1 [req|]] eqn:E; [|discriminate E].
  simpl.
  rewrite (proj1 (submitOrder_lines_are_purchasable_entries _ _ _ _ E)).
  reflexivity.
Defined.

Lemma or_null_truthy a u : Js.or_null a = Some u -> Js.truthy u = true.
Proof.
  unfold Js.or_null. destruct (Js.truthy_opt a) eqn:E; [|discriminate].
  intros ->. exact E.
Qed.

Lemma checkoutOutcome_acceptedWith o link :
  SubmissionAcceptedWith o link -> checkoutOutcome o = Js.Resolved link.
Proof.
  intros H. destruct H as [| |errs [->| ->]|errs url [->| ->]]; reflexivity.
Qed.

Example submit_accepted_but_navigation_throws :
  let st := openOrderSheet (updateCart productX 2 initialState) in
  submitOrder hostNoNavigation backendAccepts st
  = (showToast "Order submission failed: Invalid URL"
       (setOrderSheetVisible false (resetCart st)),
     Some "https://shop.example/checkout/1").
Proof. reflexivity. Qed.

(** X13. A submission the backend accepts (a 2xx payload without errors,
    whose link is the checkout's [webUrl] when that is not blank): afterwards
    the cart is empty, the inferred currency unset, the order sheet closed
    and the submission flag unset, while store and catalog stay; the link
    handed to the host is that link and is never blank.  The confirmation is
    on display unless there is a link and neither [openLink] nor
    [window.open] can open it: then the notification reads "Order submission
    failed: " with the message of that error, although the order went
    through and the cart is already empty.  When the response arrives in a
    later state, the cart of that state is emptied all the same, and the
    sheet is closed only if it was open when the submission started. *)
Theorem submitOrder_success_resets_session :
  forall (h : Host) (backend : CheckoutRequest -> HttpOutcome CheckoutData)
         (st st1 : State) (req : CheckoutRequest) (link : option string),
    submitOrder_begin h st = (st1, Some req) ->
    SubmissionAcceptedWith (backend req) link ->
    (let st' := fst (submitOrder h backend st) in
     cart st' = JsMap.empty /\
     currency st' = None /\
     orderSheetVisible st' = false /\
     isSubmitting st' = false /\
     selectedStore st' = selectedStore st /\
     productsByCategory st' = productsByCategory st /\
     selectedCategoryId st' = selectedCategoryId st /\
     toast st'
     = match link with
       | Some url =>
           match navigate h url with
           | NavThrows msg =>
               {| message := "Order submission failed: " ++
                             (if Js.truthy msg then msg else "Unknown error");
                  visible := true |}
           | _ =>
               {| message := "Order draft created. Continue in Saleor to finalize.";
                  visible := true |}
           end
       | None =>
           {| message := "Order draft created. Continue in Saleor to finalize.";
              visible := true |}
       end) /\
    snd (submitOrder h backend st) = link /\
    (forall u, link = Some u -> Js.truthy u = true) /\
    (forall cur,
       cart (fst (submitOrder_settle h st (backend req) cur)) = JsMap.empty /\
       isSubmitting (fst (submitOrder_settle h st (backend req) cur)) = false /\
       orderSheetVisible (fst (submitOrder_settle h st (backend req) cur))
       = if orderSheetVisible st then false else orderSheetVisible cur).
Proof.
  intros h backend st st1 req link Hbegin Hacc.
  pose proof (checkoutOutcome_acceptedWith _ _ Hacc) as Hres.
  destruct (submitOrder_begin_sent h st st1 req Hbegin) as [_ [Hst1 _]].
  unfold submitOrder. rewrite Hbegin. unfold submitOrder_settle.
  rewrite Hres. subst st1. unfold submitOrder_failed, closeOrderSheet_from.
  split; [|split; [|split]].
  - destruct link as [url|]; [destruct (navigate h url)|];
      destruct (orderSheetVisible st) eqn:Hv; simpl; rewrite ?Hv;
      repeat split.
  - destruct link as [url|]; [destruct (navigate h url)|]; reflexivity.
  - intros u Hu. subst link. inversion Hacc as [| | |errs url Herr Ho Hl].
    now apply (or_null_truthy url).
  - intros cur.
    destruct link as [url|]; [destruct (navigate h url)|];
      destruct (orderSheetVisible st); repeat split.
Qed.

Lemma submitOrder_success_resets_session_witness :
  cart (fst (submitOrder hostGuest backendAccepts sessionWithOpenSheet))
  = JsMap.empty /\
  snd (submitOrder hostGuest backendAccepts sessionWithOpenSheet)
  = Some "https://shop.example/checkout/1" /\
  toast (fst (submitOrder hostNoNavigation backendAccepts sessionWithOpenSheet))
  = {| message := "Order submission failed: Invalid URL"; visible := true |}.
Proof.
  destruct (submitOrder_begin hostGuest sessionWithOpenSheet)
    as [st1 [req|]] eqn:E; [|discriminate E].
  destruct (submitOrder_success_resets_session hostGuest backendAccepts
              sessionWithOpenSheet st1 req
              (Some "https://shop.example/checkout/1") E
              (accepted_with_checkout (Some [])
                 (Some "https://shop.example/checkout/1")
                 (or_intror eq_refl)))
    as [[Hcart _] [Hlink _]].
  destruct (submitOrder_begin hostNoNavigation sessionWithOpenSheet)
    as [st2 [req2|]] eqn:E2; [|discriminate E2].
  destruct (submitOrder_success_resets_session hostNoNavigation backendAccepts
              sessionWithOpenSheet st2 req2
              (Some "https://shop.example/checkout/1") E2
              (accepted_with_checkout (Some [])
                 (Some "https://shop.example/checkout/1")
                 (or_intror eq_refl)))
    as [[_ [_ [_ [_ [_ [_ [_ Htoast]]]]]]] _].
  split; [exact Hcart | split; [exact Hlink | exact Htoast]].
Defined.

Example submit_enabled_without_variant :
  let st := updateCart productNoVariant 1 initialState in
  submitButtonDisabled st = false /\
  submitButtonClick hostGuest st
  = (showToast "Nothing to submit. Add items first." st, None).
Proof. split; reflexivity. Qed.

(** X14. With a cart as the product cards build it (every entry
    purchasable, quantities at least 1), the submit button is enabled exactly
    when the cart is not empty and nothing is in flight, and a click then
    sets the submission flag and sends one request with one line per cart
    entry.  A disabled button sends nothing and changes nothing. *)
Theorem submitButton_sends_whole_cart :
  forall (h : Host) (st : State),
    (submitButtonDisabled st = true -> submitButtonClick h st = (st, None)) /\
    ((forall k e, In (k, e) (cart st) ->
        purchasable (product e) = true /\ (1 <= quantity e)%Z) ->
     (submitButtonDisabled st = false <->
        cart st <> JsMap.empty /\ isSubmitting st = false) /\
     (submitButtonDisabled st = false ->
        exists req,
          submitButtonClick h st = (setIsSubmitting true st, Some req) /\
          length (req_lines req) = JsMap.size (cart st))).
Proof.
  intros h st. split.
  - intros Hd. unfold submitButtonClick. now rewrite Hd.
  - intros Hall.
    assert (Hpos : quantitiesPositive (cart st))
      by (intros k e Hin; now apply (Hall k e)).
    assert (Hfilter : forall f : CartEntry -> bool,
               (forall e, purchasable (product e) = true -> f e = true) ->
               filter f (JsMap.values (cart st)) = JsMap.values (cart st)).
    { intros f Hf. unfold JsMap.values.
      induction (cart st) as [|[k e] m IH]; [reflexivity|].
      simpl. rewrite (Hf e) by (apply (Hall k); now left).
      f_equal. apply IH.
      - intros k' e' Hin. apply (Hall k'). now right.
      - intros k' e' Hin. apply (Hpos k'). now right. }
    assert (Hpriced : pricedEntries (cart st) = JsMap.values (cart st)).
    { apply Hfilter. intros e He. unfold purchasable in He. unfold priced.
      apply andb_true_iff in He. destruct He as [_ He].
      now destruct (priceAmount (product e)). }
    assert (Hpur : purchasableEntries (cart st) = JsMap.values (cart st))
      by (apply Hfilter; auto).
    assert (Hitems : items (summarizeCart st) = 0%Z <-> cart st = JsMap.empty).
    { rewrite (items_zero_iff st Hpos), Hpriced. unfold JsMap.values.
      split; [apply map_eq_nil | now intros ->]. }
    assert (Hiff : submitButtonDisabled st = false <->
                   cart st <> JsMap.empty /\ isSubmitting st = false).
    { unfold submitButtonDisabled. rewrite orb_false_iff, Z.eqb_neq.
      now rewrite Hitems. }
    split; [exact Hiff|].
    intros Hd. unfold submitButtonClick. rewrite Hd.
    apply Hiff in Hd. destruct Hd as [Hne Hidle].
    unfold submitOrder_begin. rewrite Hidle.
    assert (Hlen : length (orderLines (cart st)) = JsMap.size (cart st)).
    { rewrite orderLines_purchasableEntries, Hpur, length_map.
      unfold JsMap.values, JsMap.size. apply length_map. }
    destruct (orderLines (cart st)) as [|l ls] eqn:E.
    + exfalso. apply Hne. unfold JsMap.size in Hlen.
      now destruct (cart st).
    + eexists. split; [reflexivity|]. exact Hlen.
Qed.

Lemma submitButton_sends_whole_cart_witness :
  exists req,
    submitButtonClick hostGuest (updateCart productX 2 initialState)
    = (setIsSubmitting true (updateCart productX 2 initialState), Some req) /\
    length (req_lines req) = 1%nat.
Proof.
  apply (proj2 (proj2 (submitButton_sends_whole_cart hostGuest
                         (updateCart productX 2 initialState))
                  ltac:(intros k e [Heq|[]]; inversion Heq;
                        split; [reflexivity | simpl; lia]))).
  reflexivity.
Defined.

(** ** Requests *)

Lemma join_truthy_nonempty sep xs :
  (forall x, In x xs -> Js.truthy x = true) -> xs <> [] ->
  Js.join sep xs <> "".
Proof.
  intros Hall Hne. destruct xs as [|x rest]; [congruence|].
  assert (Hx : Js.truthy x = true) by (apply Hall; now left).
  destruct x as [|c x]; [discriminate|].
  destruct rest; simpl; discriminate.
Qed.

(** X15. [graphQLRequest] hands data on only for a 2xx response whose
    payload lists no errors, and then unchanged: data that comes with errors
    is dropped.  The message of a rejection is blank only when the transport
    error had a blank message or no listed error carries a message. *)
Theorem graphQLRequest_no_partial_results :
  forall (D : Type) (o : HttpOutcome D),
    (forall d, graphQLRequest o = Js.Resolved d <-> o = Payload [] d) /\
    (graphQLRequest o = Js.Rejected "" ->
       o = FetchFailed "" \/
       exists err errs data,
         o = Payload (err :: errs) data /\
         forall e, In e (err :: errs) -> Js.truthy_opt (gql_message e) = false).
Proof.
  intros D o. split.
  - intros d. destruct o as [m|s t u|[|e es] data]; simpl; split; intros H;
      try discriminate; try (inversion H; reflexivity).
  - destruct o as [m|s t u|[|e es] data]; unfold graphQLRequest; intros H.
    + left. now inversion H.
    + discriminate.
    + discriminate.
    + right. exists e, es, data. split; [reflexivity|].
      remember (filter Js.truthy
                  (map (fun err => Js.join_elt (gql_message err)) (e :: es)))
        as msgs eqn:Hmsgs.
      injection H as Hj.
      assert (Hnil : msgs = []).
      { destruct msgs as [|x xs]; [reflexivity|]. exfalso.
        apply (join_truthy_nonempty ", " (x :: xs)); [|discriminate|exact Hj].
        intros y Hy. rewrite Hmsgs in Hy.
        apply filter_In in Hy. tauto. }
      intros e' He'.
      destruct (Js.truthy_opt (gql_message e')) eqn:T; [|reflexivity].
      exfalso.
      assert (Hin : In (Js.join_elt (gql_message e')) msgs).
      { subst msgs. apply filter_In. split.
        - apply in_map_iff. now exists e'.
        - destruct (gql_message e'); [exact T | discriminate]. }
      rewrite Hnil in Hin. contradiction.
Qed.

Lemma graphQLRequest_no_partial_results_witness :
  exists err errs data,
    @Payload CheckoutData [ {| gql_message := None |}; {| gql_message := Some "" |} ]
      (Some {| checkoutCreate := None |})
    = Payload (err :: errs) data /\
    forall e, In e (err :: errs) -> Js.truthy_opt (gql_message e) = false.
Proof.
  destruct (proj2 (graphQLRequest_no_partial_results CheckoutData
                     (Payload [ {| gql_message := None |};
                                {| gql_message := Some "" |} ]
                        (Some {| checkoutCreate := None |})))
              eq_refl) as [H|H].
  - discriminate H.
  - exact H.
Defined.

(** ** Store list *)

(** X16. [loadStores]: once the request has settled the store view never
    keeps saying that it is loading.  On success the list holds one store per
    returned edge, in response order, and the empty-state message is blank
    exactly when there is a store to show; on failure the list is left as it
    was and the message says that the stores could not be loaded. *)
Theorem loadStores_settles :
  forall (o : HttpOutcome (list RawStoreNode)) (sl : StoreList),
    storeEmptyMessage (loadStores_begin sl) = "Loading stores…" /\
    storeEmptyMessage (loadStores o sl) <> "Loading stores…" /\
    (forall edges,
       graphQLRequest o = Js.Resolved edges ->
       let nodes := match edges with Some es => es | None => [] end in
       map store_id (stores (loadStores o sl)) = map rs_id nodes /\
       stores (loadStores o sl) = map storeOfNode nodes /\
       (storeEmptyMessage (loadStores o sl) = "" <->
          stores (loadStores o sl) <> [])) /\
    (forall msg,
       graphQLRequest o = Js.Rejected msg ->
       stores (loadStores o sl) = stores sl /\
       storeEmptyMessage (loadStores o sl)
       = "Unable to load stores. Pull to refresh or try again later.").
Proof.
  intros o sl. unfold loadStores, loadStores_settle.
  split; [reflexivity|].
  destruct (graphQLRequest o) as [edges|msg]; simpl.
  - split.
    + destruct (map storeOfNode _); discriminate.
    + split; [|intros msg H; discriminate].
      intros edges' H. inversion H; subst edges'. cbv zeta.
      split; [now rewrite map_map|]. split; [reflexivity|].
      destruct (map storeOfNode _); split; congruence || discriminate.
  - split; [discriminate|]. split; [intros e H; discriminate|].
    intros msg' _. split; reflexivity.
Qed.

Lemma loadStores_settles_witness :
  stores (loadStores (Payload [] (Some [storeNodeA])) initialStoreList)
  = [ {| store_id := "store-a"; store_slug := "store-a";
         store_name := "Store A"; store_description := "Long description";
         store_image := ""; store_imageAlt := "Store A" |} ] /\
  storeEmptyMessage
    (loadStores (NotOk 500%N "" "Internal Server Error") initialStoreList)
  = "Unable to load stores. Pull to refresh or try again later.".
Proof.
  split.
  - apply (proj1 (proj2 (proj1 (proj2 (proj2
             (loadStores_settles (Payload [] (Some [storeNodeA]))
                initialStoreList)))
             (Some [storeNodeA]) eq_refl))).
  - apply (proj2 (proj2 (proj2 (proj2
             (loadStores_settles (NotOk 500%N "" "Internal Server Error")
                initialStoreList)))
             "API request failed (500): Internal Server Error" eq_refl)).
Defined.

(** ** Buyer identity *)

Lemma keepDigits_uint d :
  keepDigits (NilEmpty.string_of_uint d) = NilEmpty.string_of_uint d.
Proof.
  induction d; simpl; [reflexivity| | | | | | | | | |];
    unfold isDigit; simpl; now rewrite IHd.
Qed.

Lemma keepDigits_nilzero d :
  keepDigits (NilZero.string_of_uint d) = NilZero.string_of_uint d.
Proof.
  destruct d; try reflexivity;
    apply (keepDigits_uint (_ d)) || (unfold NilZero.string_of_uint;
                                      apply keepDigits_uint).
Qed.

Lemma keepDigits_stringOfZ z : keepDigits (stringOfZ z) = stringOfZ (Z.abs z).
Proof.
  unfold stringOfZ. destruct z as [|p|p]; simpl.
  - reflexivity.
  - apply keepDigits_nilzero.
  - apply keepDigits_nilzero.
Qed.

Example pseudo_email_negative_id :
  buildPseudoEmail 0 (Some {| tg_id := Some (-42)%Z; tg_username := Some "" |})
  = "user42@telegram.local".
Proof. reflexivity. Qed.

(** X17. [buildPseudoEmail] always yields a non-empty local part followed
    by "@telegram.local": "guest+" and the clock value without user data, the
    user name when there is one, and otherwise "user" followed by the decimal
    digits of the user id without its sign (the clock value for a missing or
    zero id). *)
Theorem buildPseudoEmail_shape :
  forall (now : N) (userData : option TelegramUser),
    (exists localPart,
       buildPseudoEmail now userData = localPart ++ "@telegram.local" /\
       localPart <> "") /\
    (forall u name,
       userData = Some u -> tg_username u = Some name -> Js.truthy name = true ->
       buildPseudoEmail now userData = name ++ "@telegram.local") /\
    (forall u z,
       userData = Some u -> Js.truthy_opt (tg_username u) = false ->
       tg_id u = Some z -> z <> 0%Z ->
       buildPseudoEmail now userData
       = "user" ++ stringOfZ (Z.abs z) ++ "@telegram.local").
Proof.
  intros now userData. split; [|split].
  - unfold buildPseudoEmail. destruct userData as [u|].
    + destruct (Js.truthy_opt (tg_username u)) eqn:T.
      * exists (Js.join_elt (tg_username u)). split; [reflexivity|].
        destruct (tg_username u) as [s|]; [|discriminate]. simpl.
        intros ->. discriminate.
      * eexists ("user" ++ _). split; [reflexivity | discriminate].
    + exists ("guest+" ++ dec now). split; [reflexivity | discriminate].
  - intros u name -> Hname Htr. unfold buildPseudoEmail.
    rewrite Hname. simpl. now rewrite Htr.
  - intros u z -> Hname Hid Hz. unfold buildPseudoEmail.
    rewrite Hname, Hid.
    destruct (z =? 0)%Z eqn:E; [apply Z.eqb_eq in E; contradiction|].
    simpl. now rewrite keepDigits_stringOfZ.
Qed.

Lemma buildPseudoEmail_shape_witness :
  buildPseudoEmail 5
    (Some {| tg_id := Some (-1234567)%Z; tg_username := None |})
  = "user1234567@telegram.local".
Proof.
  apply (proj2 (proj2 (buildPseudoEmail_shape 5
                         (Some {| tg_id := Some (-1234567)%Z;
                                  tg_username := None |})))
           _ (-1234567)%Z eq_refl eq_refl eq_refl).
  discriminate.
Defined.

(** ** Text truncation *)

Module Utf16Facts.
Import Utf16.

Lemma trimStart_length s : (length (trimStart s) <= length s)%nat.
Proof.
  induction s as [|c s IH]; simpl; [lia|].
  destruct (isWhiteSpace c); simpl; lia.
Qed.

Lemma trimStart_head s :
  match trimStart s with
  | [] => True
  | c :: _ => isWhiteSpace c = false
  end.
Proof.
  induction s as [|c s IH]; simpl; [exact I|].
  destruct (isWhiteSpace c) eqn:E; [exact IH | exact E].
Qed.

Lemma trim_length s : (length (trim s) <= length s)%nat.
Proof.
  unfold trim, trimEnd. rewrite length_rev.
  pose proof (trimStart_length (rev (trimStart s))) as H1.
  rewrite length_rev in H1.
  pose proof (trimStart_length s). lia.
Qed.

Lemma trim_no_trailing_space s :
  match rev (trim s) with
  | [] => True
  | c :: _ => isWhiteSpace c = false
  end.
Proof.
  unfold trim, trimEnd. rewrite rev_involutive. apply trimStart_head.
Qed.

Lemma slice0_length s stop :
  (0 <= stop)%Z -> (Z.of_nat (length (slice0 s stop)) <= stop)%Z.
Proof.
  intros Hs. unfold slice0.
  destruct (stop <? 0)%Z eqn:E; [apply Z.ltb_lt in E; lia|].
  pose proof (firstn_le_length
                (Z.to_nat (Z.min stop (Z.of_nat (length s)))) s) as H1.
  rewrite length_firstn. lia.
Qed.

Lemma truncateText_fits value maxLength :
  (Z.of_nat (length value) <= maxLength)%Z -> truncateText value maxLength = value.
Proof.
  intros H. unfold truncateText. destruct value as [|c v]; [reflexivity|].
  apply Z.leb_le in H. now rewrite H.
Qed.

Lemma truncateText_length value maxLength :
  (1 <= maxLength)%Z ->
  (Z.of_nat (length (truncateText value maxLength)) <= maxLength)%Z.
Proof.
  intros Hm. unfold truncateText. destruct value as [|c v]; [simpl; lia|].
  destruct (Z.of_nat (length (c :: v)) <=? maxLength)%Z eqn:E.
  - now apply Z.leb_le in E.
  - rewrite length_app. simpl length at 2.
    pose proof (trim_length (slice0 (c :: v) (maxLength - 1))).
    pose proof (slice0_length (c :: v) (maxLength - 1)). lia.
Qed.

End Utf16Facts.

Example truncate_trims_before_ellipsis :
  Utf16.truncateText textHotDrinks 11
  = [72; 111; 116; 32; 100; 114; 105; 110; 107; 8230]%N.
Proof. reflexivity. Qed.

(** X18. [truncateText] with a limit of at least 1: the result never has
    more code units than the limit; a text that fits is returned unchanged;
    a longer one becomes a prefix of the text, trimmed, followed by the
    ellipsis, with no white space just before the ellipsis; truncating twice
    is the same as truncating once; and the result is empty only for the
    empty text, so a fallback caption is shown only when there is no text. *)
Theorem truncateText_bounded :
  forall (value : Utf16.str) (maxLength : Z),
    (1 <= maxLength)%Z ->
    (Z.of_nat (length (Utf16.truncateText value maxLength)) <= maxLength)%Z /\
    ((Z.of_nat (length value) <= maxLength)%Z ->
       Utf16.truncateText value maxLength = value) /\
    ((maxLength < Z.of_nat (length value))%Z ->
       exists body,
         Utf16.truncateText value maxLength = (body ++ [Utf16.ellipsis])%list /\
         body = Utf16.trim (firstn (Z.to_nat (maxLength - 1)) value) /\
         match rev body with
         | [] => True
         | c :: _ => Utf16.isWhiteSpace c = false
         end) /\
    Utf16.truncateText (Utf16.truncateText value maxLength) maxLength
    = Utf16.truncateText value maxLength /\
    (Utf16.truncateText value maxLength = [] <-> value = []).
Proof.
  intros value maxLength Hm.
  pose proof (Utf16Facts.truncateText_length value maxLength Hm) as Hlen.
  split; [exact Hlen|]. split; [apply Utf16Facts.truncateText_fits|].
  split; [|split].
  - intros Hlong. unfold Utf16.truncateText.
    destruct value as [|c v]; [simpl in Hlong; lia|].
    destruct (Z.of_nat (length (c :: v)) <=? maxLength)%Z eqn:E;
      [apply Z.leb_le in E; lia|].
    eexists. split; [reflexivity|].
    assert (Hslice : Utf16.slice0 (c :: v) (maxLength - 1)
                     = firstn (Z.to_nat (maxLength - 1)) (c :: v)).
    { unfold Utf16.slice0.
      destruct (maxLength - 1 <? 0)%Z eqn:E'; [apply Z.ltb_lt in E'; lia|].
      now rewrite Z.min_l by lia. }
    rewrite Hslice. split; [reflexivity|].
    apply Utf16Facts.trim_no_trailing_space.
  - now apply Utf16Facts.truncateText_fits.
  - unfold Utf16.truncateText. destruct value as [|c v]; [tauto|].
    destruct (Z.of_nat (length (c :: v)) <=? maxLength)%Z.
    + tauto.
    + split; [|discriminate]. intros H. now apply app_eq_nil in H.
Qed.

Lemma truncateText_bounded_witness :
  (Z.of_nat (length (Utf16.truncateText textHotDrinks 11)) <= 11)%Z /\
  Utf16.truncateText textHotDrinks 20 = textHotDrinks.
Proof.
  split.
  - apply (proj1 (truncateText_bounded textHotDrinks 11 ltac:(lia))).
  - apply (proj1 (proj2 (truncateText_bounded textHotDrinks 20 ltac:(lia)))).
    simpl. lia.
Defined.

(** ** Webhook registration script *)

Module SetHookFacts.
Import SetHook.

Lemma endsWithSlash_app p : endsWithSlash (p ++ "/") = true.
Proof.
  induction p as [|c p IH]; [reflexivity|].
  simpl. destruct (p ++ "/") eqn:E; [|exact IH].
  destruct p; discriminate.
Qed.

Lemma dropLast_app p : dropLast (p ++ "/") = p.
Proof.
  induction p as [|c p IH]; [reflexivity|].
  simpl. destruct (p ++ "/") eqn:E.
  - destruct p; discriminate.
  - now rewrite IH.
Qed.

End SetHookFacts.

Example webhookUrl_examples :
  SetHook.webhookUrl "https://shop.example" = "https://shop.example/telegram" /\
  SetHook.webhookUrl "https://shop.example/" = "https://shop.example/telegram" /\
  SetHook.webhookUrl "https://shop.example//" = "https://shop.example//telegram".
Proof. repeat split. Qed.

(** X19. The webhook URL of sethook.js: one trailing slash of REMOTE_PATH
    is dropped before "/telegram" is appended, so a path given with or
    without its final slash yields the same URL; a second trailing slash is
    kept. *)
Theorem webhookUrl_drops_one_trailing_slash :
  forall p : string,
    SetHook.webhookUrl (p ++ "/") = p ++ "/telegram" /\
    (SetHook.endsWithSlash p = false ->
       SetHook.webhookUrl p = p ++ "/telegram" /\
       SetHook.webhookUrl (p ++ "/") = SetHook.webhookUrl p).
Proof.
  intros p.
  assert (H : SetHook.webhookUrl (p ++ "/") = p ++ "/telegram").
  { unfold SetHook.webhookUrl, SetHook.trimmedBase.
    now rewrite SetHookFacts.endsWithSlash_app, SetHookFacts.dropLast_app. }
  split; [exact H|].
  intros Hno. rewrite H.
  unfold SetHook.webhookUrl, SetHook.trimmedBase. rewrite Hno. now split.
Qed.

Lemma webhookUrl_drops_one_trailing_slash_witness :
  SetHook.webhookUrl ("https://shop.example" ++ "/")
  = SetHook.webhookUrl "https://shop.example".
Proof.
  apply (proj2 (proj2 (webhookUrl_drops_one_trailing_slash "https://shop.example")
                  eq_refl)).
Defined.

Ltac hook_side :=
  repeat split; auto; try discriminate;
  try match goal with
      | H : Some _ = Some _ |- _ => injection H as <-; reflexivity
      end.

(** X20. Outcome of sethook.js: the script ends with status 0 or 1.  It
    ends with 0 exactly when fetch exists, both environment variables are
    set and non-empty, the request returns a 2xx response and the parsed body
    has a truthy [ok]; it then prints the webhook URL and the success line
    and nothing on the error stream.  Every other run ends with 1, prints
    nothing on standard output and at least one error line.  A request is
    sent exactly when the environment is complete, whatever becomes of it
    (also when fetch throws or the response is refused); it asks to drop
    pending updates and carries the webhook URL. *)
Theorem setHook_run_outcome :
  forall (env : SetHook.Env) (fetch : SetHook.Request -> SetHook.FetchResult),
    let r := SetHook.run env fetch in
    let complete :=
      SetHook.fetchAvailable env
      && Js.truthy_opt (SetHook.TELEGRAM_BOT_TOKEN env)
      && Js.truthy_opt (SetHook.REMOTE_PATH env) in
    (SetHook.exitCode r = 0%Z \/ SetHook.exitCode r = 1%Z) /\
    (SetHook.exitCode r = 0%Z <->
       complete = true /\
       exists rq resp body,
         SetHook.requested r = Some rq /\
         fetch rq = SetHook.FetchReturns resp /\
         SetHook.resp_ok resp = true /\
         SetHook.resp_payload resp = Some body /\
         SetHook.body_ok body = true) /\
    (SetHook.exitCode r = 0%Z ->
       SetHook.stdout r
       = [ SetHook.webhookUrl (Js.join_elt (SetHook.REMOTE_PATH env));
           "Webhook set successfully!" ] /\
       SetHook.stderr r = []) /\
    (SetHook.exitCode r = 1%Z ->
       SetHook.stdout r = [] /\ SetHook.stderr r <> []) /\
    (complete = false -> SetHook.requested r = None) /\
    (complete = true ->
       SetHook.requested r
       = Some {| SetHook.rq_endpoint :=
                   SetHook.endpoint
                     (Js.join_elt (SetHook.TELEGRAM_BOT_TOKEN env));
                 SetHook.rq_url :=
                   SetHook.webhookUrl (Js.join_elt (SetHook.REMOTE_PATH env));
                 SetHook.rq_drop_pending_updates := true |}) /\
    (forall rq,
       SetHook.requested r = Some rq ->
       complete = true /\
       SetHook.rq_drop_pending_updates rq = true /\
       SetHook.rq_url rq
       = SetHook.webhookUrl (Js.join_elt (SetHook.REMOTE_PATH env)) /\
       SetHook.rq_endpoint rq
       = SetHook.endpoint (Js.join_elt (SetHook.TELEGRAM_BOT_TOKEN env))).
Proof.
  intros env fetch r complete. subst r complete. unfold SetHook.run.
  destruct (SetHook.fetchAvailable env); cbn [negb andb];
    [|hook_side; intros [H _]; discriminate H].
  destruct (Js.truthy_opt (SetHook.TELEGRAM_BOT_TOKEN env)); cbn [negb andb];
    [|hook_side; intros [H _]; discriminate H].
  destruct (Js.truthy_opt (SetHook.REMOTE_PATH env)); cbn [negb andb];
    [|hook_side; intros [H _]; discriminate H].
  set (rq := {| SetHook.rq_endpoint := _; SetHook.rq_url := _;
                SetHook.rq_drop_pending_updates := true |}).
  destruct (fetch rq) as [err|resp] eqn:F.
  - simpl. hook_side.
    intros [_ [rq' [resp [body [Hrq [Hf _]]]]]].
    injection Hrq as <-. rewrite F in Hf. discriminate.
  - destruct (SetHook.resp_ok resp) eqn:Hok; cbn [negb].
    + destruct (SetHook.resp_payload resp) as [body|] eqn:Hp.
      * destruct (SetHook.body_ok body) eqn:Hb; cbn [negb].
        -- simpl. hook_side. exists rq, resp, body. auto.
        -- simpl. hook_side.
           intros [_ [rq' [resp' [body' [Hrq [Hf [_ [Hp' Hb']]]]]]]].
           injection Hrq as <-. rewrite F in Hf. injection Hf as <-.
           rewrite Hp in Hp'. injection Hp' as <-. congruence.
      * simpl. hook_side.
        intros [_ [rq' [resp' [body' [Hrq [Hf [_ [Hp' _]]]]]]]].
        injection Hrq as <-. rewrite F in Hf. injection Hf as <-.
        congruence.
    + simpl. hook_side.
      intros [_ [rq' [resp' [body' [Hrq [Hf [Hok' _]]]]]]].
      injection Hrq as <-. rewrite F in Hf. injection Hf as <-.
      congruence.
Qed.

Lemma setHook_run_outcome_witness :
  SetHook.exitCode (SetHook.run hookEnv hookFetchOk) = 0%Z /\
  SetHook.stdout (SetHook.run hookEnv hookFetchOk)
  = ["https://shop.example/telegram"; "Webhook set successfully!"].
Proof.
  split; [reflexivity|].
  apply (proj1 (proj1 (proj2 (proj2 (setHook_run_outcome hookEnv hookFetchOk)))
                  eq_refl)).
Defined.

(** ** The empty-state caption *)

Lemma updateCart_view p n st :
  productsByCategory (updateCart p n st) = productsByCategory st /\
  selectedCategoryId (updateCart p n st) = selectedCategoryId st.
Proof.
  unfold updateCart. now destruct (Js.truthy_opt (priceCurrency p)).
Qed.

Lemma uiStep_view st ev :
  (productsByCategory (uiStep st ev) = productsByCategory st /\
   (selectedCategoryId (uiStep st ev) = selectedCategoryId st \/
    exists c, In c (JsMap.values (productsByCategory st)) /\
              selectedCategoryId (uiStep st ev) = Some (cat_id c))) \/
  (productsByCategory (uiStep st ev) = JsMap.empty /\
   selectedCategoryId (uiStep st ev) = None).
Proof.
  assert (Hsame : forall s,
             productsByCategory s = productsByCategory st ->
             selectedCategoryId s = selectedCategoryId st ->
             (productsByCategory s = productsByCategory st /\
              (selectedCategoryId s = selectedCategoryId st \/
               exists c, In c (JsMap.values (productsByCategory st)) /\
                         selectedCategoryId s = Some (cat_id c))) \/
             (productsByCategory s = JsMap.empty /\ selectedCategoryId s = None))
    by (intros s H1 H2; left; auto).
  destruct ev as [i|i|i|i|i|i| | | | |]; cbn [uiStep].
  - destruct (nth_error (productGrid st) i) as [p|]; [|now apply Hsame].
    unfold addButtonClick.
    destruct (JsMap.get (cart st) (id p)); [now apply Hsame|].
    destruct (addButtonDisabled p); [now apply Hsame|].
    apply Hsame; apply updateCart_view.
  - unfold cardCounterClick, counterMinusClick.
    destruct (nth_error (productGrid st) i) as [p|]; [|now apply Hsame].
    destruct (JsMap.get (cart st) (id p)); [|now apply Hsame].
    apply Hsame; apply updateCart_view.
  - unfold cardCounterClick, counterPlusClick.
    destruct (nth_error (productGrid st) i) as [p|]; [|now apply Hsame].
    destruct (JsMap.get (cart st) (id p)); [|now apply Hsame].
    apply Hsame; apply updateCart_view.
  - unfold lineCounterClick, counterMinusClick.
    destruct (orderLinesRendered st); [|now apply Hsame].
    destruct (nth_error (JsMap.values (cart st)) i); [|now apply Hsame].
    apply Hsame; apply updateCart_view.
  - unfold lineCounterClick, counterPlusClick.
    destruct (orderLinesRendered st); [|now apply Hsame].
    destruct (nth_error (JsMap.values (cart st)) i); [|now apply Hsame].
    apply Hsame; apply updateCart_view.
  - destruct (nth_error (JsMap.values (productsByCategory st)) i) as [c|] eqn:E;
      [|now apply Hsame].
    left. split; [reflexivity|]. right. exists c.
    split; [now apply nth_error_In in E | reflexivity].
  - unfold miniCartClick, openOrderSheet.
    destruct (miniCartRendered st), (orderSheetVisible st); now apply Hsame.
  - unfold mainButtonClick, openOrderSheet.
    destruct (0 <? JsMap.size (cart st))%nat, (orderSheetVisible st);
      now apply Hsame.
  - unfold closeOrderSheet, closeOrderSheet_from.
    destruct (orderSheetVisible st); now apply Hsame.
  - unfold backButtonClick, closeOrderSheet, closeOrderSheet_from.
    destruct (orderSheetVisible st); [now apply Hsame|].
    destruct (selectedStore st); [right; now split | now apply Hsame].
  - right. now split.
Qed.

Lemma catalogViewOk_cleared st :
  productsByCategory st = JsMap.empty -> selectedCategoryId st = None ->
  catalogViewOk st.
Proof.
  intros Hp Hs. unfold catalogViewOk. rewrite Hp, Hs.
  split; [constructor|]. split; [intros k c []|].
  split; [intros k c [] | intros k H; discriminate].
Qed.

Lemma catalogViewOk_uiStep st ev : catalogViewOk st -> catalogViewOk (uiStep st ev).
Proof.
  intros [Hnd [Hkey [Hne Hsel]]].
  destruct (uiStep_view st ev) as [[Hp Hs]|[Hp Hs]];
    [|now apply catalogViewOk_cleared].
  unfold catalogViewOk. rewrite Hp.
  split; [exact Hnd|]. split; [exact Hkey|]. split; [exact Hne|].
  destruct Hs as [Hs|[c [Hin Hs]]]; rewrite Hs; [exact Hsel|].
  intros k Hk _. injection Hk as <-.
  apply in_map_iff in Hin. destruct Hin as [[k c'] [Heq Hin]].
  simpl in Heq. subst c'.
  destruct (Hkey k c Hin) as [-> _].
  rewrite (in_get_NoDup _ _ _ Hnd Hin). discriminate.
Qed.

Lemma catalogViewOk_applyStoreProducts localeCompare edges st :
  catalogViewOk (applyStoreProducts localeCompare edges st).
Proof.
  destruct (applyStoreProducts_fields localeCompare edges st)
    as [_ [_ [Hp Hsel]]]. cbv zeta in Hp, Hsel.
  unfold catalogViewOk. rewrite Hp, Hsel.
  set (nodes := match edges with Some es => es | None => [] end).
  split; [apply groupByCategory_NoDup|].
  split; [apply groupByCategory_keyed|].
  split.
  - intros k c Hin.
    apply (in_get_NoDup _ _ _ (groupByCategory_NoDup nodes)) in Hin.
    rewrite groupByCategory_get in Hin.
    destruct (nodesOfCategory k nodes); [discriminate|].
    injection Hin as Hc. rewrite <- Hc. simpl. discriminate.
  - intros k Hk _.
    destruct (sortCategories localeCompare (JsMap.values (groupByCategory nodes)))
      as [|c tl] eqn:Hsort; [discriminate Hk|].
    simpl in Hk. unfold Js.or_null in Hk.
    destruct (Js.truthy_opt (Some (cat_id c))); [|discriminate Hk].
    injection Hk as <-.
    assert (Hin : In c (JsMap.values (groupByCategory nodes))).
    { apply (Permutation_in _ (sortCategories_perm localeCompare _)).
      rewrite Hsort. now left. }
    apply in_map_iff in Hin. destruct Hin as [[k c'] [Heq Hin]].
    simpl in Heq. subst c'.
    destruct (groupByCategory_keyed _ k c Hin) as [-> _].
    rewrite (in_get_NoDup _ _ _ (groupByCategory_NoDup nodes) Hin).
    discriminate.
Qed.

Lemma catalogViewOk_sessionStep localeCompare st ev :
  catalogViewOk st -> catalogViewOk (sessionStep localeCompare st ev).
Proof.
  intros Hok. destruct ev as [e|store|o|h|h captured o]; cbn [sessionStep].
  - now apply catalogViewOk_uiStep.
  - exact Hok.
  - unfold selectStore_settle, loadStoreProducts.
    destruct (graphQLRequest o).
    + apply catalogViewOk_applyStoreProducts.
    + now apply catalogViewOk_cleared.
  - unfold submitButtonClick, submitOrder_begin.
    destruct (submitButtonDisabled st); [exact Hok|].
    destruct (isSubmitting st); [exact Hok|].
    destruct (orderLines (cart st)); exact Hok.
  - unfold submitOrder_settle, submitOrder_failed, closeOrderSheet_from.
    destruct (checkoutOutcome o) as [[url|]|msg]; [| |exact Hok].
    + destruct (navigate h url), (orderSheetVisible captured); exact Hok.
    + destruct (orderSheetVisible captured); exact Hok.
Qed.

Lemma productEmptyState_of_view st :
  catalogViewOk st ->
  productEmptyState st = None \/
  productEmptyState st = Some "Select a category to view items.".
Proof.
  intros [Hnd [_ [Hne Hsel]]]. unfold productEmptyState, selectedCategory.
  destruct (selectedStore st); [|now left].
  destruct (selectedCategoryId st) as [k|]; [|now right].
  simpl. destruct (Js.truthy k) eqn:T; [|now right].
  specialize (Hsel k eq_refl T).
  destruct (JsMap.get (productsByCategory st) k) as [c|] eqn:G; [|congruence].
  apply JsMapFacts.get_in in G. apply Hne in G.
  destruct (products c); [congruence | now left].
Qed.

Example failed_load_shows_select_a_category :
  let st := selectStore asciiCaseInsensitiveCompare storeA catalogUnavailable
              initialState in
  productEmptyMessage st = "Unable to load products. Swipe down to retry." /\
  productEmptyState st = Some "Select a category to view items.".
Proof. split; reflexivity. Qed.

(** X21. The empty-state caption of the menu view: in every state the
    session can reach from its initial state by clicks, store selections,
    submissions and catalog or checkout responses (in any order, with any
    outcome), the caption is either
    absent or reads "Select a category to view items."; the text kept in
    [productEmptyMessage] is never the one on display.  In particular, after
    a failed catalog load inside a store the caption reads "Select a category
    to view items." although [productEmptyMessage] holds the retry text. *)
Theorem productEmptyMessage_never_displayed :
  forall (localeCompare : string -> string -> comparison)
         (evs : list SessionEvent),
    let st := sessionRun localeCompare evs initialState in
    (productEmptyState st = None \/
     productEmptyState st = Some "Select a category to view items.") /\
    (forall o msg,
       graphQLRequest o = Js.Rejected msg ->
       selectedStore st <> None ->
       let st' := selectStore_settle localeCompare o st in
       productEmptyMessage st' = "Unable to load products. Swipe down to retry." /\
       productEmptyState st' = Some "Select a category to view items.").
Proof.
  intros localeCompare evs st.
  assert (Hok : catalogViewOk st).
  { subst st. unfold sessionRun.
    assert (H0 : catalogViewOk initialState)
      by (now apply catalogViewOk_cleared).
    revert H0. generalize initialState as s.
    induction evs as [|ev evs IH]; intros s H0; [exact H0|].
    simpl. apply IH. now apply catalogViewOk_sessionStep. }
  split; [now apply productEmptyState_of_view|].
  intros o msg Hrej Hstore st'. subst st'.
  unfold selectStore_settle, loadStoreProducts. rewrite Hrej.
  split; [reflexivity|].
  unfold productEmptyState. simpl.
  destruct (selectedStore st); [reflexivity | congruence].
Qed.

Lemma productEmptyMessage_never_displayed_witness :
  productEmptyState
    (selectStore_settle asciiCaseInsensitiveCompare catalogUnavailable
       (sessionRun asciiCaseInsensitiveCompare
          [StoreCardClick storeA; CatalogResponse catalogFoodAndDrinks;
           Click (CardAdd 0); Click (TabClick 0)]
          initialState))
  = Some "Select a category to view items.".
Proof.
  apply (proj2 (proj2 (productEmptyMessage_never_displayed
                         asciiCaseInsensitiveCompare
                         [StoreCardClick storeA;
                          CatalogResponse catalogFoodAndDrinks;
                          Click (CardAdd 0); Click (TabClick 0)])
                  catalogUnavailable
                  "API request failed (503): Service Unavailable"
                  eq_refl ltac:(discriminate))).
Defined.

(** ** Bootstrap *)

Module BootstrapFacts.
Import Bootstrap.

Lemma runBlock_first throws c rest w :
  In c (attempted (runBlock throws (c :: rest) w)).
Proof.
  simpl. destruct (throws c); simpl; auto.
Qed.

Lemma runBlock_subset throws calls w x :
  In x (attempted (runBlock throws calls w)) -> In x calls.
Proof.
  induction calls as [|c calls IH]; simpl; [easy|].
  destruct (throws c); simpl; intuition.
Qed.

Lemma runBlock_warnings throws calls w :
  (length (warnings (runBlock throws calls w)) <= 1)%nat.
Proof.
  induction calls as [|c calls IH]; simpl; [lia|].
  destruct (throws c); simpl; lia.
Qed.

End BootstrapFacts.

(** X22. [bootstrap]: whatever SDK calls throw, the first call of each of
    the five blocks is attempted, so a failure never stops the start-up;
    the second call of each two-call block (theme, mini app, viewport,
    buttons) is attempted exactly when the first did not throw, in particular
    the main button is mounted only if mounting the back button succeeded; there are at most five warnings, and none and all nine
    calls in source order when nothing throws. *)
Theorem bootstrap_blocks_are_independent :
  forall throws : Bootstrap.Call -> bool,
    let t := Bootstrap.bootstrap throws in
    (forall c,
       In c [Bootstrap.Init; Bootstrap.ThemeMount; Bootstrap.MiniAppMount;
             Bootstrap.ViewportMount; Bootstrap.BackButtonMount] ->
       In c (Bootstrap.attempted t)) /\
    (In Bootstrap.MainButtonMount (Bootstrap.attempted t) <->
       throws Bootstrap.BackButtonMount = false) /\
    (In Bootstrap.ThemeBindCssVars (Bootstrap.attempted t) <->
       throws Bootstrap.ThemeMount = false) /\
    (In Bootstrap.MiniAppReady (Bootstrap.attempted t) <->
       throws Bootstrap.MiniAppMount = false) /\
    (In Bootstrap.ViewportExpand (Bootstrap.attempted t) <->
       throws Bootstrap.ViewportMount = false) /\
    (length (Bootstrap.warnings t) <= 5)%nat /\
    ((forall c, throws c = false) ->
       Bootstrap.warnings t = [] /\
       Bootstrap.attempted t
       = [Bootstrap.Init; Bootstrap.ThemeMount; Bootstrap.ThemeBindCssVars;
          Bootstrap.MiniAppMount; Bootstrap.MiniAppReady;
          Bootstrap.ViewportMount; Bootstrap.ViewportExpand;
          Bootstrap.BackButtonMount; Bootstrap.MainButtonMount]).
Proof.
  intros throws t. subst t.
  unfold Bootstrap.bootstrap, Bootstrap.blocks.
  cbn [Bootstrap.runBlocks Bootstrap.attempted Bootstrap.warnings].
  split; [|split; [|split; [|split; [|split; [|split]]]]].
  - intros c Hc. rewrite !in_app_iff.
    destruct Hc as [<-|[<-|[<-|[<-|[<-|[]]]]]].
    + left. apply BootstrapFacts.runBlock_first.
    + right; left. apply BootstrapFacts.runBlock_first.
    + right; right; left. apply BootstrapFacts.runBlock_first.
    + right; right; right; left. apply BootstrapFacts.runBlock_first.
    + right; right; right; right; left. apply BootstrapFacts.runBlock_first.
  - rewrite !in_app_iff. split.
    + intros [H|[H|[H|[H|[H|[]]]]]];
        try (apply BootstrapFacts.runBlock_subset in H; simpl in H;
             intuition discriminate).
      simpl in H. destruct (throws Bootstrap.BackButtonMount); [|reflexivity].
      simpl in H. intuition discriminate.
    + intros H. right; right; right; right; left.
      simpl. rewrite H.
      destruct (throws Bootstrap.MainButtonMount); simpl; auto.
  - rewrite !in_app_iff. split.
    + intros [H|[H|[H|[H|[H|[]]]]]];
        try (apply BootstrapFacts.runBlock_subset in H; simpl in H;
             intuition discriminate).
      simpl in H. destruct (throws Bootstrap.ThemeMount); [|reflexivity].
      simpl in H. intuition discriminate.
    + intros H. right; left.
      simpl. rewrite H.
      destruct (throws Bootstrap.ThemeBindCssVars); simpl; auto.
  - rewrite !in_app_iff. split.
    + intros [H|[H|[H|[H|[H|[]]]]]];
        try (apply BootstrapFacts.runBlock_subset in H; simpl in H;
             intuition discriminate).
      simpl in H. destruct (throws Bootstrap.MiniAppMount); [|reflexivity].
      simpl in H. intuition discriminate.
    + intros H. right; right; left.
      simpl. rewrite H.
      destruct (throws Bootstrap.MiniAppReady); simpl; auto.
  - rewrite !in_app_iff. split.
    + intros [H|[H|[H|[H|[H|[]]]]]];
        try (apply BootstrapFacts.runBlock_subset in H; simpl in H;
             intuition discriminate).
      simpl in H. destruct (throws Bootstrap.ViewportMount); [|reflexivity].
      simpl in H. intuition discriminate.
    + intros H. right; right; right; left.
      simpl. rewrite H.
      destruct (throws Bootstrap.ViewportExpand); simpl; auto.
  - rewrite !length_app. simpl length at 6.
    pose proof (BootstrapFacts.runBlock_warnings throws [Bootstrap.Init]
                  "Telegram SDK init failed, continuing in web mode.").
    pose proof (BootstrapFacts.runBlock_warnings throws
                  [Bootstrap.ThemeMount; Bootstrap.ThemeBindCssVars]
                  "Theme params unavailable.").
    pose proof (BootstrapFacts.runBlock_warnings throws
                  [Bootstrap.MiniAppMount; Bootstrap.MiniAppReady]
                  "Mini app mount failed.").
    pose proof (BootstrapFacts.runBlock_warnings throws
                  [Bootstrap.ViewportMount; Bootstrap.ViewportExpand]
                  "Viewport not available.").
    pose proof (BootstrapFacts.runBlock_warnings throws
                  [Bootstrap.BackButtonMount; Bootstrap.MainButtonMount]
                  "Buttons unavailable.").
    lia.
  - intros Hnone. cbn [Bootstrap.runBlock]. rewrite !Hnone. simpl.
    split; reflexivity.
Qed.

Lemma bootstrap_blocks_are_independent_witness :
  In Bootstrap.MainButtonMount
    (Bootstrap.attempted
       (Bootstrap.bootstrap
          (fun c => match c with Bootstrap.Init => true | _ => false end))).
Proof.
  apply (proj2 (proj1 (proj2 (bootstrap_blocks_are_independent
                                (fun c => match c with
                                          | Bootstrap.Init => true
                                          | _ => false
                                          end))))).
  reflexivity.
Defined.

(** ** Notification timer *)

Module NotifierFacts.
Import Notifier.

Lemma clearTimeout_self id : clearTimeout id [id] = [].
Proof.
  unfold clearTimeout. simpl. now rewrite Nat.eqb_refl.
Qed.

Lemma notifierWellTimed_init : notifierWellTimed init.
Proof.
  split; [simpl; lia | now left].
Qed.

Lemma showToast_pending msg n :
  notifierWellTimed n -> pending (showToast msg n) = [nextTimer n].
Proof.
  intros [Hn [Hp|[id [Hr [Hp Hid]]]]]; unfold showToast; simpl; rewrite Hp.
  - destruct (timerRef n) as [id|]; [|reflexivity].
    now destruct (id =? 0)%nat.
  - rewrite Hr. destruct (id =? 0)%nat eqn:E.
    + apply Nat.eqb_eq in E. lia.
    + now rewrite clearTimeout_self.
Qed.

Lemma notifierWellTimed_step n ev : notifierWellTimed n -> notifierWellTimed (step n ev).
Proof.
  intros Hw. destruct ev as [msg|id]; cbn [step].
  - split; [simpl; lia|]. right. exists (nextTimer n).
    split; [reflexivity|]. split; [now apply showToast_pending|].
    destruct Hw as [Hn _]. simpl. lia.
  - unfold fire. destruct (existsb (Nat.eqb id) (pending n)) eqn:E; [|exact Hw].
    destruct Hw as [Hn [Hp|[id' [Hr [Hp Hid]]]]].
    + rewrite Hp in E. discriminate.
    + split; [exact Hn|]. left. simpl. rewrite Hp in *. simpl in E.
      rewrite orb_false_r in E. apply Nat.eqb_eq in E. subst id'.
      apply clearTimeout_self.
Qed.

Lemma notifierWellTimed_run evs : notifierWellTimed (run evs).
Proof.
  unfold run. generalize notifierWellTimed_init. generalize init as n.
  induction evs as [|ev evs IH]; intros n Hn; [exact Hn|].
  simpl. apply IH. now apply notifierWellTimed_step.
Qed.

End NotifierFacts.

Example older_timer_cannot_hide_newer_toast :
  Notifier.slot
    (Notifier.run [Notifier.Post "first"; Notifier.Post "second";
                   Notifier.Fire 1])
  = {| message := "second"; visible := true |}.
Proof. reflexivity. Qed.

(** X23. The notification slot: after any sequence of posts and time-out
    firings at most one time-out is pending, and it is the one of the latest
    post.  Hence, once a message is posted, the only time-out that can hide
    it is its own: the firing of any other identifier leaves the state as it
    is, and the firing of its own hides it and leaves nothing pending. *)
Theorem showToast_single_pending_timer :
  forall (evs : list Notifier.Event) (msg : string),
    let n := Notifier.run evs in
    (length (Notifier.pending n) <= 1)%nat /\
    (forall id, In id (Notifier.pending n) -> Notifier.timerRef n = Some id) /\
    Notifier.slot (Notifier.showToast msg n)
    = {| message := msg; visible := true |} /\
    (forall id,
       id <> Notifier.nextTimer n ->
       Notifier.fire id (Notifier.showToast msg n) = Notifier.showToast msg n) /\
    Notifier.slot (Notifier.fire (Notifier.nextTimer n) (Notifier.showToast msg n))
    = {| message := msg; visible := false |} /\
    Notifier.pending
      (Notifier.fire (Notifier.nextTimer n) (Notifier.showToast msg n)) = [].
Proof.
  intros evs msg n.
  pose proof (NotifierFacts.notifierWellTimed_run evs) as Hw. fold n in Hw.
  pose proof (NotifierFacts.showToast_pending msg n Hw) as Hp.
  split; [|split; [|split; [reflexivity|split; [|split]]]].
  - destruct Hw as [_ [H|[id [_ [H _]]]]]; rewrite H; simpl; lia.
  - intros id Hin. destruct Hw as [_ [H|[id' [Hr [H _]]]]]; rewrite H in Hin.
    + contradiction.
    + destruct Hin as [<-|[]]. exact Hr.
  - intros id Hne. unfold Notifier.fire. rewrite Hp. simpl.
    destruct (id =? Notifier.nextTimer n)%nat eqn:E; [|reflexivity].
    apply Nat.eqb_eq in E. contradiction.
  - unfold Notifier.fire. rewrite Hp. simpl. now rewrite Nat.eqb_refl.
  - unfold Notifier.fire. rewrite Hp. simpl. rewrite Nat.eqb_refl. simpl.
    unfold Notifier.clearTimeout. simpl. now rewrite ?Nat.eqb_refl.
Qed.

Lemma showToast_single_pending_timer_witness :
  Notifier.fire 1
    (Notifier.showToast "second" (Notifier.run [Notifier.Post "first"]))
  = Notifier.showToast "second" (Notifier.run [Notifier.Post "first"]).
Proof.
  apply (proj1 (proj2 (proj2 (proj2
           (showToast_single_pending_timer [Notifier.Post "first"] "second"))))).
  discriminate.
Defined.

(** ** Late catalog responses *)

Example stale_response_overwrites_catalog :
  let st := sessionRun asciiCaseInsensitiveCompare
              [ StoreCardClick storeA;
                StoreCardClick {| store_id := "store-b"; store_slug := "store-b";
                                  store_name := "Store B"; store_description := "";
                                  store_image := ""; store_imageAlt := "" |};
                CatalogResponse (Payload [] (Some []));
                CatalogResponse catalogFoodAndDrinks ]
              initialState in
  option_map store_id (selectedStore st) = Some "store-b" /\
  JsMap.keys (productsByCategory st) = ["cat-food"; "cat-drinks"].
Proof. split; reflexivity. Qed.

(** X24. A catalog response is applied to whatever store is selected when
    it arrives: the catalog and the active category it leaves depend on the
    response alone, and the selected store and the cart are not touched.  So
    when two stores are selected in a row, the response that arrives last
    decides the catalog, whichever store it was requested for. *)
Theorem selectStore_settle_ignores_selected_store :
  forall (localeCompare : string -> string -> comparison)
         (o : HttpOutcome (list RawNode)) (st1 st2 : State),
    productsByCategory (selectStore_settle localeCompare o st1)
    = productsByCategory (selectStore_settle localeCompare o st2) /\
    selectedCategoryId (selectStore_settle localeCompare o st1)
    = selectedCategoryId (selectStore_settle localeCompare o st2) /\
    selectedStore (selectStore_settle localeCompare o st1) = selectedStore st1 /\
    cart (selectStore_settle localeCompare o st1) = cart st1 /\
    (forall a b oa ob st,
       let st' :=
         sessionRun localeCompare
           [StoreCardClick a; StoreCardClick b;
            CatalogResponse ob; CatalogResponse oa] st in
       selectedStore st' = Some b /\
       productsByCategory st'
       = productsByCategory (selectStore localeCompare a oa st)).
Proof.
  intros localeCompare o st1 st2.
  assert (H : forall s1 s2,
             productsByCategory (selectStore_settle localeCompare o s1)
             = productsByCategory (selectStore_settle localeCompare o s2) /\
             selectedCategoryId (selectStore_settle localeCompare o s1)
             = selectedCategoryId (selectStore_settle localeCompare o s2) /\
             selectedStore (selectStore_settle localeCompare o s1)
             = selectedStore s1 /\
             cart (selectStore_settle localeCompare o s1) = cart s1).
  { intros s1 s2. unfold selectStore_settle, loadStoreProducts.
    destruct (graphQLRequest o); repeat split. }
  destruct (H st1 st2) as [H1 [H2 [H3 H4]]].
  split; [exact H1|]. split; [exact H2|]. split; [exact H3|].
  split; [exact H4|].
  intros a b oa ob st st'. subst st'. unfold sessionRun. cbn [fold_left sessionStep].
  unfold selectStore. split.
  - unfold selectStore_settle, loadStoreProducts.
    destruct (graphQLRequest oa), (graphQLRequest ob); reflexivity.
  - unfold selectStore_settle, loadStoreProducts.
    destruct (graphQLRequest oa); reflexivity.
Qed.

(** ** A failed catalog load *)

(** C8 (where the code departs from it). After a catalog load that fails
    with a message, the store is selected with an empty catalog and no active
    category, as claimed; but nothing retry-oriented reaches the user: the
    notification carries the error's message (a default text for an empty
    one), and the retry text is only stored in [productEmptyMessage], while
    the caption on display reads "Select a category to view items." because
    the same handler clears the selected category. *)
Theorem selectStore_failure_surfaces_no_retry_text :
  forall (localeCompare : string -> string -> comparison)
         (store : Store) (o : HttpOutcome (list RawNode)) (st : State)
         (msg : string),
    graphQLRequest o = Js.Rejected msg ->
    let st' := selectStore localeCompare store o st in
    selectedStore st' = Some store /\
    productsByCategory st' = JsMap.empty /\
    selectedCategoryId st' = None /\
    toast st'
    = {| message := if Js.truthy msg then msg
                    else "Unable to load products for this store.";
         visible := true |} /\
    productEmptyMessage st' = "Unable to load products. Swipe down to retry." /\
    productEmptyState st' = Some "Select a category to view items.".
Proof.
  intros localeCompare store o st msg Hrej st'. subst st'.
  unfold selectStore, selectStore_settle, loadStoreProducts. rewrite Hrej.
  split; [reflexivity|]. split; [reflexivity|]. split; [reflexivity|].
  split; [reflexivity|]. split; reflexivity.
Qed.

Lemma selectStore_failure_surfaces_no_retry_text_witness :
  toast (selectStore asciiCaseInsensitiveCompare storeA catalogUnavailable
           initialState)
  = {| message := "API request failed (503): Service Unavailable";
       visible := true |} /\
  productEmptyState
    (selectStore asciiCaseInsensitiveCompare storeA catalogUnavailable
       initialState)
  = Some "Select a category to view items.".
Proof.
  destruct (selectStore_failure_surfaces_no_retry_text
              asciiCaseInsensitiveCompare storeA catalogUnavailable
              initialState "API request failed (503): Service Unavailable"
              eq_refl)
    as [_ [_ [_ [Htoast [_ Hcaption]]]]].
  split; [exact Htoast | exact Hcaption].
Defined.
